(** * The Github repository reader of gpt_index

    A shallow embedding of
    [gpt_index/readers/github_readers/github_repository_reader.py]
    and the properties of its crawl: argument checking, the tree walk,
    the per-blob decode / parse pipeline and the order of the result.

    Conventions of the embedding.
    - A Python [str] is a Rocq [string] holding the UTF-8 encoding of the
      text; a Python [bytes] is a [list byte].  Under this representation
      [bytes.decode("utf-8")] checks well-formedness and keeps the bytes.
    - A Python exception is a value of [exn]; a computation that may raise
      returns a [result].
    - The calls made to the Github API client are recorded, in order, in
      the [calls] of a [run]: the client is the only way the reader
      touches the network.
    - [print_if_verbose] and [logger.error] only print: they are left out,
      and so is the call of the constructor of [BaseReader].
    - [os.path] is the one of a POSIX host, and [assert] the statement of
      a run without [-O].
    - [_recurse_tree] follows the answers of the client for as long as
      they name subtrees; the model cuts that recursion with [fuel]. *)

From Stdlib Require Import ZArith NArith Lia Ascii.
From Stdlib.Strings Require Import Byte.
From Stdlib Require String.
From stdpp Require Import base option list strings gmap.

Set Warnings "-register-all".

#[global] Instance byte_eq_decision : EqDecision byte := byte_eq_dec.

(** ** Exceptions, results and recorded runs *)

Inductive exn : Type :=
| ValueError (msg : string)
| AssertionError (msg : string)
| binascii_Error
| UnicodeDecodeError
| OtherException (name : string).

(** [OutOfFuel] is not a Python outcome: it marks a recursion of the model
    that was cut before the Python recursion would have ended. *)
Inductive result (A : Type) : Type :=
| Return (a : A)
| Raise (e : exn)
| OutOfFuel.
Arguments Return {A} a.
Arguments Raise {A} e.
Arguments OutOfFuel {A}.

Inductive api_call : Type :=
| get_commit_call (owner repo commit_sha : string)
| get_branch_call (owner repo branch : string)
| get_tree_call (owner repo tree_sha : string)
| get_blob_call (owner repo file_sha : string).

Record run (A : Type) : Type := Run { calls : list api_call; outcome : result A }.
Arguments Run {A} calls outcome.
Arguments calls {A} r.
Arguments outcome {A} r.

Definition run_ret {A} (a : A) : run A := Run [] (Return a).

Definition run_raise {A} (e : exn) : run A := Run [] (Raise e).

Definition run_bind {A B} (f : A → run B) (m : run A) : run B :=
  match outcome m with
  | Return a => Run (calls m ++ calls (f a)) (outcome (f a))
  | Raise e => Run (calls m) (Raise e)
  | OutOfFuel => Run (calls m) OutOfFuel
  end.

#[global] Instance run_mret : MRet run := @run_ret.
#[global] Instance run_mbind : MBind run := @run_bind.

(** The [for x in l: acc = body(acc, x)] loop of a computation that may
    raise in its body. *)
Fixpoint for_each {A B} (body : B → A → run B) (l : list A) (acc : B) : run B :=
  match l with
  | [] => mret acc
  | x :: l' => acc' ← body acc x; for_each body l' acc'
  end.

(** ** The Python library functions the reader calls *)

(** [str.startswith] and [str.endswith]. *)
Definition startswith (s p : string) : bool := String.prefix p s.

Fixpoint endswith_char (s : string) (c : ascii) : bool :=
  match s with
  | EmptyString => false
  | String x EmptyString => bool_decide (x = c)
  | String _ s' => endswith_char s' c
  end.

(** [str.rfind(c)]: the highest index of [c] in [s], or [-1]. *)
Fixpoint rfind (c : ascii) (s : string) : Z :=
  match s with
  | EmptyString => (-1)%Z
  | String x s' =>
      let r := rfind c s' in
      if (0 <=? r)%Z then (r + 1)%Z
      else if bool_decide (x = c) then 0%Z else (-1)%Z
  end.

(** The slices [s[i:]] and [s[:i]] for [0 <= i]. *)
Fixpoint slice_from (i : nat) (s : string) : string :=
  match i, s with
  | O, _ => s
  | S i', String _ s' => slice_from i' s'
  | S _, EmptyString => EmptyString
  end.

Fixpoint slice_to (i : nat) (s : string) : string :=
  match i, s with
  | O, _ => EmptyString
  | S i', String x s' => String x (slice_to i' s')
  | S _, EmptyString => EmptyString
  end.

(** [sep.join(l)]. *)
Fixpoint str_join (sep : string) (l : list string) : string :=
  match l with
  | [] => ""
  | [x] => x
  | x :: l' => x +:+ sep +:+ str_join sep l'
  end.

(** [os.path] on a POSIX host ([posixpath]). *)
Module os_path.

Definition join (a b : string) : string :=
  if startswith b "/" then b
  else if bool_decide (a = "") || endswith_char a "/" then a +:+ b
  else a +:+ "/" +:+ b.

Definition basename (p : string) : string :=
  let i := (rfind "/" p + 1)%Z in
  slice_from (Z.to_nat i) p.

(** The loop of [genericpath._splitext] that skips the leading dots of
    the file name: [n] bounds the iterations left. *)
Fixpoint splitext_loop (n : nat) (p : string) (filenameIndex dotIndex : Z)
  : string * string :=
  match n with
  | O => (p, "")
  | S n' =>
      if (filenameIndex <? dotIndex)%Z then
        if bool_decide
             (slice_to 1 (slice_from (Z.to_nat filenameIndex) p) ≠ ".")
        then (slice_to (Z.to_nat dotIndex) p, slice_from (Z.to_nat dotIndex) p)
        else splitext_loop n' p (filenameIndex + 1)%Z dotIndex
      else (p, "")
  end.

Definition splitext (p : string) : string * string :=
  let sepIndex := rfind "/" p in
  let dotIndex := rfind "." p in
  if (sepIndex <? dotIndex)%Z then
    splitext_loop (String.length p) p (sepIndex + 1)%Z dotIndex
  else (p, "").

End os_path.

(** *** [base64.b64decode] and [base64.b64encode]

    [base64.b64decode(s)] is [binascii.a2b_base64(s)] in its default,
    non-strict mode: bytes outside the alphabet are skipped, a complete
    pad sequence ends the input, and a quad left incomplete at the end of
    the input raises [binascii.Error]. *)
Module base64.

Definition byte_of_N (n : N) : byte :=
  match Byte.of_N (n mod 256) with
  | Some b => b
  | None => x00
  end.

Definition BASE64_PAD : byte := "="%byte.

(** The value of a character of the alphabet. *)
Definition table_a2b_base64 (c : byte) : option N :=
  let n := Byte.to_N c in
  if (65 <=? n)%N && (n <=? 90)%N then Some (n - 65)%N
  else if (97 <=? n)%N && (n <=? 122)%N then Some (n - 71)%N
  else if (48 <=? n)%N && (n <=? 57)%N then Some (n + 4)%N
  else if (n =? 43)%N then Some 62%N
  else if (n =? 47)%N then Some 63%N
  else None.

(** The character of a 6-bit value. *)
Definition table_b2a_base64 (v : N) : byte :=
  if (v <? 26)%N then byte_of_N (v + 65)
  else if (v <? 52)%N then byte_of_N (v + 71)
  else if (v <? 62)%N then byte_of_N (v - 4)
  else if (v =? 62)%N then "+"%byte
  else "/"%byte.

(** The loop of [a2b_base64]: [quad_pos] is the position in the current
    group of four characters, [leftchar] the bits not yet written and
    [pads] the pad characters seen since the last data character. *)
Fixpoint a2b_base64_loop (ascii_data : list byte) (quad_pos : nat)
    (leftchar : N) (pads : nat) : option (list byte) :=
  match ascii_data with
  | [] => if bool_decide (quad_pos = 0) then Some [] else None
  | this_ch :: rest =>
      if bool_decide (this_ch = BASE64_PAD) then
        if bool_decide (2 ≤ quad_pos) then
          if bool_decide (4 ≤ quad_pos + S pads) then Some []
          else a2b_base64_loop rest quad_pos leftchar (S pads)
        else a2b_base64_loop rest quad_pos leftchar pads
      else
        match table_a2b_base64 this_ch with
        | None => a2b_base64_loop rest quad_pos leftchar pads
        | Some v =>
            match quad_pos with
            | 0 => a2b_base64_loop rest 1 v 0
            | 1 =>
                cons (byte_of_N (N.lor (N.shiftl leftchar 2) (N.shiftr v 4)))
                  <$> a2b_base64_loop rest 2 (N.land v 15) 0
            | 2 =>
                cons (byte_of_N (N.lor (N.shiftl leftchar 4) (N.shiftr v 2)))
                  <$> a2b_base64_loop rest 3 (N.land v 3) 0
            | _ =>
                cons (byte_of_N (N.lor (N.shiftl leftchar 6) v))
                  <$> a2b_base64_loop rest 0 0%N 0
            end
        end
  end.

Definition b64decode (s : list byte) : result (list byte) :=
  match a2b_base64_loop s 0 0%N 0 with
  | Some bin_data => Return bin_data
  | None => Raise binascii_Error
  end.

(** The four 6-bit values of a group of three bytes. *)
Definition sextet1 (b1 : byte) : N := N.shiftr (Byte.to_N b1) 2.
Definition sextet2 (b1 b2 : byte) : N :=
  N.lor (N.shiftl (N.land (Byte.to_N b1) 3) 4) (N.shiftr (Byte.to_N b2) 4).
Definition sextet3 (b2 b3 : byte) : N :=
  N.lor (N.shiftl (N.land (Byte.to_N b2) 15) 2) (N.shiftr (Byte.to_N b3) 6).
Definition sextet4 (b3 : byte) : N := N.land (Byte.to_N b3) 63.

Fixpoint b64encode (s : list byte) : list byte :=
  match s with
  | [] => []
  | [b1] =>
      [table_b2a_base64 (sextet1 b1); table_b2a_base64 (sextet2 b1 x00);
       BASE64_PAD; BASE64_PAD]
  | [b1; b2] =>
      [table_b2a_base64 (sextet1 b1); table_b2a_base64 (sextet2 b1 b2);
       table_b2a_base64 (sextet3 b2 x00); BASE64_PAD]
  | b1 :: b2 :: b3 :: rest =>
      table_b2a_base64 (sextet1 b1) :: table_b2a_base64 (sextet2 b1 b2)
      :: table_b2a_base64 (sextet3 b2 b3) :: table_b2a_base64 (sextet4 b3)
      :: b64encode rest
  end.

End base64.

(** *** [bytes.decode("utf-8")]

    The well-formed UTF-8 byte sequences (Unicode, table 3-7): no overlong
    forms, no surrogates, nothing above U+10FFFF, no truncated sequence. *)
Module utf8.

Definition in_range (b : byte) (lo hi : N) : bool :=
  (lo <=? Byte.to_N b)%N && (Byte.to_N b <=? hi)%N.

Fixpoint valid (bs : list byte) : bool :=
  match bs with
  | [] => true
  | b0 :: r0 =>
      let c := Byte.to_N b0 in
      if (c <? 128)%N then valid r0
      else if (c <? 194)%N then false
      else if (c <? 224)%N then
        match r0 with
        | b1 :: r1 => in_range b1 128 191 && valid r1
        | _ => false
        end
      else if (c <? 240)%N then
        match r0 with
        | b1 :: b2 :: r2 =>
            in_range b1 (if (c =? 224)%N then 160 else 128)
                        (if (c =? 237)%N then 159 else 191)
            && in_range b2 128 191 && valid r2
        | _ => false
        end
      else if (c <? 245)%N then
        match r0 with
        | b1 :: b2 :: b3 :: r3 =>
            in_range b1 (if (c =? 240)%N then 144 else 128)
                        (if (c =? 244)%N then 143 else 191)
            && in_range b2 128 191 && in_range b3 128 191 && valid r3
        | _ => false
        end
      else false
  end.

Definition decode (bs : list byte) : result string :=
  if valid bs then Return (String.string_of_list_byte bs)
  else Raise UnicodeDecodeError.

Definition encode (s : string) : list byte := String.list_byte_of_string s.

End utf8.

(** ** The data model *)

(** A computation of a collaborator: it returns or raises. *)
Definition lift {A} (r : exn + A) : result A :=
  match r with
  | inl e => Raise e
  | inr a => Return a
  end.

(** Modelled from the spec: the response types of
    [github_api_client.py], which is not part of the sources read here.
    The fields are the ones the reader accesses; [content] holds the
    encoded bytes of a blob. *)
Module GitTreeResponseModel.
Record GitTreeObject : Type :=
  { path : string; mode : string; type : string; sha : string }.
Record t : Type := { tree : list GitTreeObject }.
End GitTreeResponseModel.

Module GitCommitResponseModel.
Module Tree.
Record t : Type := { sha : string }.
End Tree.
Record t : Type := { tree : Tree.t }.
End GitCommitResponseModel.

Module GitBranchResponseModel.
Module Commit.
Record t : Type := { commit : GitCommitResponseModel.t }.
End Commit.
Record t : Type := { commit : Commit.t }.
End GitBranchResponseModel.

Module GitBlobResponseModel.
Record t : Type :=
  { content : list byte; encoding : string; sha : string }.
End GitBlobResponseModel.

Abbreviation GitTreeObject := GitTreeResponseModel.GitTreeObject.

#[global] Instance GitTreeObject_eq_dec : EqDecision GitTreeObject.
Proof. solve_decision. Defined.

(** Modelled from the spec: the API client, a black box that answers each
    request with a typed response or raises.  Its answers are a function
    of the request for the duration of one crawl. *)
Record GithubClient : Type := {
  commit_response : string → string → string → exn + GitCommitResponseModel.t;
  branch_response : string → string → string → exn + GitBranchResponseModel.t;
  tree_response : string → string → string → exn + GitTreeResponseModel.t;
  blob_response : string → string → string → exn + GitBlobResponseModel.t
}.

Definition get_commit (c : GithubClient) (owner repo commit_sha : string)
  : run GitCommitResponseModel.t :=
  Run [get_commit_call owner repo commit_sha]
      (lift (commit_response c owner repo commit_sha)).

Definition get_branch (c : GithubClient) (owner repo branch : string)
  : run GitBranchResponseModel.t :=
  Run [get_branch_call owner repo branch]
      (lift (branch_response c owner repo branch)).

Definition get_tree (c : GithubClient) (owner repo tree_sha : string)
  : run GitTreeResponseModel.t :=
  Run [get_tree_call owner repo tree_sha]
      (lift (tree_response c owner repo tree_sha)).

Definition get_blob (c : GithubClient) (owner repo file_sha : string)
  : run GitBlobResponseModel.t :=
  Run [get_blob_call owner repo file_sha]
      (lift (blob_response c owner repo file_sha)).

(** Modelled from the spec: [Document] of [readers/schema/base.py], as the
    arguments its constructor is called with; [doc_id] is [None] where the
    reader passes none. *)
Record Document : Type := {
  text : string;
  doc_id : option string;
  extra_info : gmap string string
}.

(** Modelled from the spec: an extractor of [readers/file], with the
    one-time initialisation and the [parse_file] that turns the bytes of a
    file into text segments.  The reader hands the bytes over in a
    temporary file that it removes afterwards; the parser is taken as a
    function of the bytes written there. *)
Record BaseParser : Type := {
  init_parser : exn + unit;
  parse_file : list byte → exn + list string
}.

Definition blank_line : string := String "010"%char (String "010"%char "").

(** ** The reader *)

Record GithubRepositoryReader : Type := {
  _owner : string;
  _repo : string;
  _use_parser : bool;
  _verbose : bool;
  _client : GithubClient
}.

Section Reader.

(** The process environment, the constructor of the API client and the
    two names imported from [readers/file/base.py] and
    [github_readers/utils.py]. *)
Variable environ : gmap string string.
Variable GithubClient_init : string → GithubClient.
Variable DEFAULT_FILE_EXTRACTOR : gmap string BaseParser.
Variable get_file_extension : string → string.

Definition os_getenv (name : string) : option string := environ !! name.

Definition __init__ (owner repo : string) (use_parser verbose : bool)
    (github_token : option string) : run GithubRepositoryReader :=
  github_token ←
    match github_token with
    | None =>
        match os_getenv "GITHUB_TOKEN" with
        | None =>
            run_raise (ValueError
              ("Please provide a Github token. "
               +:+ "You can do so by passing it as an argument or"
               +:+ "by setting the GITHUB_TOKEN environment variable."))
        | Some github_token => mret github_token
        end
    | Some github_token => mret github_token
    end;
  mret {| _owner := owner; _repo := repo; _use_parser := use_parser;
          _verbose := verbose; _client := GithubClient_init github_token |}.

Fixpoint _recurse_tree (fuel : nat) (self : GithubRepositoryReader)
    (tree_sha current_path : string) (current_depth : nat)
  : run (list (GitTreeObject * string)) :=
  match fuel with
  | O => Run [] OutOfFuel
  | S fuel' =>
      tree_data ← get_tree (_client self) (_owner self) (_repo self) tree_sha;
      for_each
        (λ blobs_and_full_paths tree,
           let file_path :=
             os_path.join current_path (GitTreeResponseModel.path tree) in
           if bool_decide (GitTreeResponseModel.type tree = "tree") then
             sub ← _recurse_tree fuel' self (GitTreeResponseModel.sha tree)
                   file_path (S current_depth);
             mret (blobs_and_full_paths ++ sub)
           else if bool_decide (GitTreeResponseModel.type tree = "blob") then
             mret (blobs_and_full_paths ++ [(tree, file_path)])
           else mret blobs_and_full_paths)
        (GitTreeResponseModel.tree tree_data) []
  end.

Definition _parse_supported_file (self : GithubRepositoryReader)
    (file_path : string) (file_content : list byte)
    (tree_sha tree_path : string) : run (option Document) :=
  let file_extension := get_file_extension file_path in
  match DEFAULT_FILE_EXTRACTOR !! file_extension with
  | Some parser =>
      _ ← Run [] (lift (init_parser parser));
      let parsed_file :=
        match parse_file parser file_content with
        | inr parsed_file => Some (str_join blank_line parsed_file)
        | inl e => None
        end in
      match parsed_file with
      | None => mret None
      | Some parsed_file =>
          mret (Some {| text := parsed_file;
                        doc_id := Some tree_sha;
                        extra_info := {[ "file_path" := file_path;
                                         "file_name" := tree_path ]} |})
      end
  | None => mret None
  end.

(** One iteration of the loop of [_generate_documents]: [documents] is
    the list built so far, and a [continue] returns it unchanged. *)
Definition _generate_documents_body (self : GithubRepositoryReader)
    (documents : list Document) (blob_and_path : GitTreeObject * string)
  : run (list Document) :=
  let '(blob_object, full_path) := blob_and_path in
  blob_data ← get_blob (_client self) (_owner self) (_repo self)
                (GitTreeResponseModel.sha blob_object);
  if negb (bool_decide (GitBlobResponseModel.encoding blob_data = "base64"))
  then
    run_raise (AssertionError
      ("blob encoding " +:+ GitBlobResponseModel.encoding blob_data
       +:+ " not supported"))
  else
    match base64.b64decode (GitBlobResponseModel.content blob_data) with
    | Raise binascii_Error => mret documents
    | Raise e => run_raise e
    | OutOfFuel => Run [] OutOfFuel
    | Return decoded_bytes =>
        document ←
          (if _use_parser self then
             _parse_supported_file self full_path decoded_bytes
               (GitBlobResponseModel.sha blob_data) full_path
           else mret None);
        match document with
        | Some document => mret (documents ++ [document])
        | None =>
            match utf8.decode decoded_bytes with
            | Raise UnicodeDecodeError => mret documents
            | Raise e => run_raise e
            | OutOfFuel => Run [] OutOfFuel
            | Return decoded_content_as_str =>
                mret (documents ++
                  [ {| text := decoded_content_as_str;
                       doc_id := None;
                       extra_info :=
                         {[ "full_path" := full_path;
                            "file_name" := os_path.basename full_path;
                            "file_extension" :=
                              (os_path.splitext full_path).2 ]} |} ])
            end
        end
    end.

Definition _generate_documents (self : GithubRepositoryReader)
    (blobs_and_paths : list (GitTreeObject * string)) : run (list Document) :=
  for_each (_generate_documents_body self) blobs_and_paths [].

(** What one blob contributes to the result: the iteration run from the
    empty list. *)
Definition blob_documents (self : GithubRepositoryReader)
    (blob_and_path : GitTreeObject * string) : run (list Document) :=
  _generate_documents_body self [] blob_and_path.

Definition _load_data_from_commit (fuel : nat) (self : GithubRepositoryReader)
    (commit_sha : string) : run (list Document) :=
  commit_response ←
    get_commit (_client self) (_owner self) (_repo self) commit_sha;
  let tree_sha :=
    GitCommitResponseModel.Tree.sha
      (GitCommitResponseModel.tree commit_response) in
  blobs_and_paths ← _recurse_tree fuel self tree_sha "" 0;
  _generate_documents self blobs_and_paths.

Definition _load_data_from_branch (fuel : nat) (self : GithubRepositoryReader)
    (branch : string) : run (list Document) :=
  branch_data ← get_branch (_client self) (_owner self) (_repo self) branch;
  let tree_sha :=
    GitCommitResponseModel.Tree.sha
      (GitCommitResponseModel.tree
         (GitBranchResponseModel.Commit.commit
            (GitBranchResponseModel.commit branch_data))) in
  blobs_and_paths ← _recurse_tree fuel self tree_sha "" 0;
  _generate_documents self blobs_and_paths.

Definition load_data (fuel : nat) (self : GithubRepositoryReader)
    (commit_sha branch : option string) : run (list Document) :=
  if bool_decide (commit_sha ≠ None) && bool_decide (branch ≠ None) then
    run_raise (ValueError "You can only specify one of commit or branch.")
  else if bool_decide (commit_sha = None) && bool_decide (branch = None) then
    run_raise (ValueError "You must specify one of commit or branch.")
  else
    match commit_sha with
    | Some commit_sha => _load_data_from_commit fuel self commit_sha
    | None =>
        match branch with
        | Some branch => _load_data_from_branch fuel self branch
        | None =>
            run_raise (ValueError "You must specify one of commit or branch.")
        end
    end.

(** One iteration of the loop of [_recurse_tree], under its own name. *)
Definition walk_body (self : GithubRepositoryReader) (fuel : nat)
    (current_path : string) (current_depth : nat)
    (blobs_and_full_paths : list (GitTreeObject * string))
    (tree : GitTreeObject) : run (list (GitTreeObject * string)) :=
  let file_path :=
    os_path.join current_path (GitTreeResponseModel.path tree) in
  if bool_decide (GitTreeResponseModel.type tree = "tree") then
    sub ← _recurse_tree fuel self (GitTreeResponseModel.sha tree)
          file_path (S current_depth);
    mret (blobs_and_full_paths ++ sub)
  else if bool_decide (GitTreeResponseModel.type tree = "blob") then
    mret (blobs_and_full_paths ++ [(tree, file_path)])
  else mret blobs_and_full_paths.

(** The plain-text fallback is reached when the parsers are switched
    off, when no parser is registered for the extension, and when the
    registered parser raised while parsing. *)
Definition falls_back (self : GithubRepositoryReader) (full_path : string)
    (decoded_bytes : list byte) : Prop :=
  _use_parser self = false
  ∨ DEFAULT_FILE_EXTRACTOR !! get_file_extension full_path = None
  ∨ ∃ parser e,
      DEFAULT_FILE_EXTRACTOR !! get_file_extension full_path = Some parser
      ∧ init_parser parser = inr ()
      ∧ parse_file parser decoded_bytes = inl e.

(** The root tree of a call of [load_data] that passes the argument
    check and gets its commit or its branch from the client. *)
Definition resolves (self : GithubRepositoryReader)
    (commit_sha branch : option string) (tree_sha : string)
  : Prop :=
  (∃ sha commit_data,
      commit_sha = Some sha ∧ branch = None
      ∧ commit_response (_client self) (_owner self) (_repo self) sha
        = inr commit_data
      ∧ tree_sha = GitCommitResponseModel.Tree.sha
                     (GitCommitResponseModel.tree commit_data))
  ∨ (∃ name branch_data,
      commit_sha = None ∧ branch = Some name
      ∧ branch_response (_client self) (_owner self) (_repo self) name
        = inr branch_data
      ∧ tree_sha = GitCommitResponseModel.Tree.sha
                     (GitCommitResponseModel.tree
                        (GitBranchResponseModel.Commit.commit
                           (GitBranchResponseModel.commit branch_data)))).

End Reader.

(** ** Repository trees *)

(** The tree of a repository as the hosting service holds it: a list of
    entries, each a leaf (a blob, or an entry of another type such as a
    submodule) or a subtree with its own entries. *)
Inductive Node : Type :=
| Leaf (entry : GitTreeObject)
| Subtree (entry : GitTreeObject) (children : list Node).

Definition entry_of (n : Node) : GitTreeObject :=
  match n with
  | Leaf entry => entry
  | Subtree entry _ => entry
  end.

Definition name_of (n : Node) : string := GitTreeResponseModel.path (entry_of n).

Fixpoint height (n : Node) : nat :=
  match n with
  | Leaf _ => 0
  | Subtree _ children => S (foldr max 0 (height <$> children))
  end.

Definition heights (nodes : list Node) : nat := foldr max 0 (height <$> nodes).

(** The client serves the entries [nodes] for [tree_sha], and the
    children of each subtree for the sha of its entry. *)
Inductive served (c : GithubClient) (owner repo : string)
  : string → list Node → Prop :=
| served_tree tree_sha nodes :
    tree_response c owner repo tree_sha
      = inr {| GitTreeResponseModel.tree := entry_of <$> nodes |} →
    Forall (node_served c owner repo) nodes →
    served c owner repo tree_sha nodes
with node_served (c : GithubClient) (owner repo : string) : Node → Prop :=
| served_leaf entry :
    GitTreeResponseModel.type entry ≠ "tree" →
    node_served c owner repo (Leaf entry)
| served_subtree entry children :
    GitTreeResponseModel.type entry = "tree" →
    served c owner repo (GitTreeResponseModel.sha entry) children →
    node_served c owner repo (Subtree entry children).

(** The number of blob entries at any depth. *)
Fixpoint count_blobs (n : Node) : nat :=
  match n with
  | Leaf entry =>
      if bool_decide (GitTreeResponseModel.type entry = "blob") then 1 else 0
  | Subtree _ children => foldr plus 0 (count_blobs <$> children)
  end.

(** The blob entries below a node, each with the names of the trees that
    enclose it followed by its own name; the entries of a tree come in
    their order, a subtree's blobs in its place. *)
Fixpoint blob_entries (segments : list string) (n : Node)
  : list (GitTreeObject * list string) :=
  match n with
  | Leaf entry =>
      if bool_decide (GitTreeResponseModel.type entry = "blob")
      then [(entry, segments ++ [GitTreeResponseModel.path entry])]
      else []
  | Subtree entry children =>
      children ≫= blob_entries (segments ++ [GitTreeResponseModel.path entry])
  end.

(** The root-relative path of a list of segments. *)
Definition full_path (segments : list string) : string :=
  foldl os_path.join "" segments.

Definition pathed (entry : GitTreeObject * list string) : GitTreeObject * string :=
  (entry.1, full_path entry.2).

(** A name in a tree is one path segment: it is not empty and holds no
    separator.  The names of the entries of one tree are distinct. *)
Fixpoint slash_free (s : string) : bool :=
  match s with
  | EmptyString => true
  | String c s' => negb (bool_decide (c = "/"%char)) && slash_free s'
  end.

Definition is_segment (s : string) : bool :=
  negb (bool_decide (s = "")) && slash_free s.

Definition names_ok (nodes : list Node) : bool :=
  bool_decide (NoDup (name_of <$> nodes)) && forallb (is_segment ∘ name_of) nodes.

Fixpoint well_formed (n : Node) : bool :=
  match n with
  | Leaf _ => true
  | Subtree _ children => names_ok children && forallb well_formed children
  end.

Definition well_formed_tree (nodes : list Node) : bool :=
  names_ok nodes && forallb well_formed nodes.

(** [current_path] does not end with the separator. *)
Definition clean (current_path : string) : Prop :=
  endswith_char current_path "/" = false.

Definition dir_prefix (current_path : string) : string :=
  if bool_decide (current_path = "") then "" else current_path +:+ "/".

(** [q] is [x], or [x] followed by a separator and more. *)
Definition tail_ok (t : string) : Prop := t = "" ∨ ∃ r, t = String "/" r.
Definition under (x q : string) : Prop := ∃ t, q = x +:+ t ∧ tail_ok t.

Definition node_paths (segments : list string) (n : Node) : list string :=
  (pathed <$> blob_entries segments n).*2.

(** The 256 bytes, for facts checked byte by byte. *)
Definition all_bytes : list byte := (base64.byte_of_N ∘ N.of_nat) <$> seq 0 256.

(** ** The reading of the specification that the code does not follow *)

(** A parser that raises while parsing ends the processing of its file:
    the blob contributes no Document at all, there is no plain-text
    fallback. *)
Definition parser_failure_is_terminal : Prop :=
  ∀ (DEFAULT_FILE_EXTRACTOR : gmap string BaseParser)
    (get_file_extension : string → string) (self : GithubRepositoryReader)
    (blob_object : GitTreeObject) (full_path : string)
    (blob_data : GitBlobResponseModel.t) (decoded_bytes : list byte)
    (parser : BaseParser) (e : exn),
    blob_response (_client self) (_owner self) (_repo self)
      (GitTreeResponseModel.sha blob_object) = inr blob_data →
    GitBlobResponseModel.encoding blob_data = "base64" →
    base64.b64decode (GitBlobResponseModel.content blob_data)
      = Return decoded_bytes →
    _use_parser self = true →
    DEFAULT_FILE_EXTRACTOR !! get_file_extension full_path = Some parser →
    init_parser parser = inr () →
    parse_file parser decoded_bytes = inl e →
    outcome (blob_documents DEFAULT_FILE_EXTRACTOR get_file_extension self
               (blob_object, full_path)) = Return [].

(** ** A repository to run the reader on

    The tree [a.txt] ("hello"), [b/c.bin] (two bytes that are not UTF-8)
    and [d.md] ("# Title"), served for the commit [commit_1] and the
    branch [main]; two more blobs, one with a truncated base64 content
    and one that is not base64 encoded; a parser for [md] that returns
    the segment "Title", and one that raises. *)
Module Scenario.

Definition entry (path type sha : string) : GitTreeObject :=
  {| GitTreeResponseModel.path := path;
     GitTreeResponseModel.mode :=
       if bool_decide (type = "tree") then "040000" else "100644";
     GitTreeResponseModel.type := type;
     GitTreeResponseModel.sha := sha |}.

Definition a_txt : GitTreeObject := entry "a.txt" "blob" "sha_a".
Definition b_dir : GitTreeObject := entry "b" "tree" "sha_b".
Definition c_bin : GitTreeObject := entry "c.bin" "blob" "sha_c".
Definition d_md : GitTreeObject := entry "d.md" "blob" "sha_d".
Definition e_txt : GitTreeObject := entry "e.txt" "blob" "sha_e".
Definition f_txt : GitTreeObject := entry "f.txt" "blob" "sha_f".

Definition nodes : list Node := [Leaf a_txt; Subtree b_dir [Leaf c_bin]; Leaf d_md].

Definition trees : gmap string (list GitTreeObject) :=
  {[ "sha_root" := [a_txt; b_dir; d_md]; "sha_b" := [c_bin] ]}.

Definition blob (encoding content sha : string) : GitBlobResponseModel.t :=
  {| GitBlobResponseModel.content := String.list_byte_of_string content;
     GitBlobResponseModel.encoding := encoding;
     GitBlobResponseModel.sha := sha |}.

Definition blobs : gmap string GitBlobResponseModel.t :=
  {[ "sha_a" := blob "base64" "aGVsbG8=" "sha_a";
     "sha_c" := blob "base64" "//4=" "sha_c";
     "sha_d" := blob "base64" "IyBUaXRsZQ==" "sha_d";
     "sha_e" := blob "base64" "aGVsb" "sha_e";
     "sha_f" := blob "utf-8" "hello" "sha_f" ]}.

Definition not_found {A} : exn + A := inl (OtherException "HTTPError").

Definition commit_1 : GitCommitResponseModel.t :=
  {| GitCommitResponseModel.tree :=
       {| GitCommitResponseModel.Tree.sha := "sha_root" |} |}.

Definition client (github_token : string) : GithubClient :=
  {| commit_response _ _ commit_sha :=
       if bool_decide (commit_sha = "commit_1") then inr commit_1
       else not_found;
     branch_response _ _ branch :=
       if bool_decide (branch = "main")
       then inr {| GitBranchResponseModel.commit :=
                     {| GitBranchResponseModel.Commit.commit := commit_1 |} |}
       else not_found;
     tree_response _ _ tree_sha :=
       match trees !! tree_sha with
       | Some entries => inr {| GitTreeResponseModel.tree := entries |}
       | None => not_found
       end;
     blob_response _ _ file_sha :=
       match blobs !! file_sha with
       | Some blob_data => inr blob_data
       | None => not_found
       end |}.

Definition reader (use_parser : bool) : GithubRepositoryReader :=
  {| _owner := "jerryjliu"; _repo := "gpt_index"; _use_parser := use_parser;
     _verbose := false; _client := client "token" |}.

(** The extension of a path, without its dot. *)
Definition extension (file_path : string) : string :=
slice_from 1 (os_path.splitext file_path).2.

Definition markdown : BaseParser :=
  {| init_parser := inr (); parse_file _ := inr ["Title"] |}.

Definition broken : BaseParser :=
  {| init_parser := inr ();
     parse_file _ := inl (OtherException "ParserError") |}.

Definition with_markdown : gmap string BaseParser := {[ "md" := markdown ]}.
Definition with_broken : gmap string BaseParser := {[ "md" := broken ]}.

Definition title_text : Document :=
  {| text := "# Title"; doc_id := None;
     extra_info := {[ "full_path" := "d.md"; "file_name" := "d.md";
                      "file_extension" := ".md" ]} |}.

Definition title_parsed : Document :=
  {| text := "Title"; doc_id := Some "sha_d";
     extra_info := {[ "file_path" := "d.md"; "file_name" := "d.md" ]} |}.

Definition hello_text : Document :=
  {| text := "hello"; doc_id := None;
     extra_info := {[ "full_path" := "a.txt"; "file_name" := "a.txt";
                      "file_extension" := ".txt" ]} |}.

End Scenario.

(** ** The requests of a crawl, and the shapes of its documents *)

Fixpoint count_subtrees (n : Node) : nat :=
  match n with
  | Leaf _ => 0
  | Subtree _ children => S (foldr plus 0 (count_subtrees <$> children))
  end.

(** The requests for the subtrees below a node, in the order of the walk:
    a subtree is requested when its entry is met, before the entries
    that follow it. *)
Fixpoint subtree_requests (owner repo : string) (n : Node) : list api_call :=
  match n with
  | Leaf _ => []
  | Subtree entry children =>
      get_tree_call owner repo (GitTreeResponseModel.sha entry)
      :: (children ≫= subtree_requests owner repo)
  end.

Definition tree_requests (owner repo tree_sha : string) (nodes : list Node)
  : list api_call :=
  get_tree_call owner repo tree_sha :: (nodes ≫= subtree_requests owner repo).

Definition blob_requests (owner repo : string)
    (blobs_and_paths : list (GitTreeObject * string)) : list api_call :=
  (λ bp, get_blob_call owner repo (GitTreeResponseModel.sha bp.1))
    <$> blobs_and_paths.

(** The two shapes of a Document of the blob at [full_path]: made by a
    parser, or made of the plain text. *)
Definition parsed_shape (full_path : string) (document : Document) : Prop :=
  is_Some (doc_id document)
  ∧ extra_info document
    = {[ "file_path" := full_path; "file_name" := full_path ]}.

Definition text_shape (full_path : string) (document : Document) : Prop :=
  doc_id document = None
  ∧ extra_info document
    = {[ "full_path" := full_path;
         "file_name" := os_path.basename full_path;
         "file_extension" := (os_path.splitext full_path).2 ]}.

(** The bytes that [a2b_base64] reads: the pad and the characters of the
    alphabet.  Every other byte, a line feed for one, is passed over. *)
Definition significant (c : byte) : bool :=
  bool_decide (c = base64.BASE64_PAD)
  || bool_decide (is_Some (base64.table_a2b_base64 c)).

Definition is_ascii (c : byte) : bool := (Byte.to_N c <? 128)%N.

(** The request that resolves the argument of [load_data] to a tree. *)
Definition resolution_request (owner repo : string)
    (commit_sha branch : option string) : list api_call :=
  match commit_sha, branch with
  | Some sha, None => [get_commit_call owner repo sha]
  | None, Some name => [get_branch_call owner repo name]
  | _, _ => []
  end.

(** No character [c] in [s]. *)
Fixpoint char_free (c : ascii) (s : string) : bool :=
  match s with
  | EmptyString => true
  | String x s' => negb (bool_decide (x = c)) && char_free c s'
  end.

(** The walk of a served tree, requests and result, at [fuel]. *)
Definition walks_served (self : GithubRepositoryReader) (fuel : nat) : Prop :=
  ∀ tree_sha nodes segments current_depth,
    served (_client self) (_owner self) (_repo self) tree_sha nodes →
    heights nodes < fuel →
    _recurse_tree fuel self tree_sha (full_path segments) current_depth
    = Run (tree_requests (_owner self) (_repo self) tree_sha nodes)
          (Return (pathed <$> (nodes ≫= blob_entries segments))).

(** What the walk promises of a pair it returns, whatever the client
    answers: the entry is a blob, and its path is joined from some path
    and the entry's own. *)
Definition walked (bp : GitTreeObject * string) : Prop :=
  GitTreeResponseModel.type bp.1 = "blob"
  ∧ ∃ current_path,
      bp.2 = os_path.join current_path (GitTreeResponseModel.path bp.1).

(** ** A repository with an outage

    The root tree lists [a.txt], a directory [x] whose tree the client
    fails to serve, and [d.md]; the blob [g.txt] cannot be fetched; the
    content of [h.txt] ("hello") comes broken into lines; the parser
    [unready] raises when it is initialised. *)
Module Outage.

Definition x_dir : GitTreeObject := Scenario.entry "x" "tree" "sha_x".
Definition g_txt : GitTreeObject := Scenario.entry "g.txt" "blob" "sha_g".
Definition h_txt : GitTreeObject := Scenario.entry "h.txt" "blob" "sha_h".

Definition trees : gmap string (list GitTreeObject) :=
  {[ "sha_root" := [Scenario.a_txt; x_dir; Scenario.d_md] ]}.

Definition blobs : gmap string GitBlobResponseModel.t :=
  {[ "sha_a" := Scenario.blob "base64" "aGVsbG8=" "sha_a";
     "sha_h" :=
       {| GitBlobResponseModel.content :=
            String.list_byte_of_string "aGVs" ++ [x0a]
            ++ String.list_byte_of_string "bG8=" ++ [x0a];
          GitBlobResponseModel.encoding := "base64";
          GitBlobResponseModel.sha := "sha_h" |} ]}.

Definition client : GithubClient :=
  {| commit_response _ _ commit_sha :=
       if bool_decide (commit_sha = "commit_1") then inr Scenario.commit_1
       else Scenario.not_found;
     branch_response _ _ branch := Scenario.not_found;
     tree_response _ _ tree_sha :=
       match trees !! tree_sha with
       | Some entries => inr {| GitTreeResponseModel.tree := entries |}
       | None => Scenario.not_found
       end;
     blob_response _ _ file_sha :=
       match blobs !! file_sha with
       | Some blob_data => inr blob_data
       | None => Scenario.not_found
       end |}.

Definition reader : GithubRepositoryReader :=
  {| _owner := "jerryjliu"; _repo := "gpt_index"; _use_parser := true;
     _verbose := false; _client := client |}.

Definition unready : BaseParser :=
  {| init_parser := inl (OtherException "ImportError");
     parse_file _ := inr ["Title"] |}.

Definition with_unready : gmap string BaseParser := {[ "md" := unready ]}.

Definition hello_h : Document :=
  {| text := "hello"; doc_id := None;
     extra_info := {[ "full_path" := "h.txt"; "file_name" := "h.txt";
                      "file_extension" := ".txt" ]} |}.

End Outage.

(** ** The reading of "malformed base64" that the code does not follow

    A content is well-formed base64 when it is the encoding of some
    bytes.  The specification has every blob whose content is not, or
    whose decoded bytes are not UTF-8 when the plain-text fallback is
    reached, contribute no Document. *)
Definition well_formed_base64 (content : list byte) : Prop :=
  ∃ s, content = base64.b64encode s.

Definition malformed_base64_is_skipped : Prop :=
  ∀ (DEFAULT_FILE_EXTRACTOR : gmap string BaseParser)
    (get_file_extension : string → string) (self : GithubRepositoryReader)
    (blob_object : GitTreeObject) (full_path : string)
    (blob_data : GitBlobResponseModel.t),
    blob_response (_client self) (_owner self) (_repo self)
      (GitTreeResponseModel.sha blob_object) = inr blob_data →
    GitBlobResponseModel.encoding blob_data = "base64" →
    ¬ well_formed_base64 (GitBlobResponseModel.content blob_data)
    ∨ (∃ decoded_bytes,
         base64.b64decode (GitBlobResponseModel.content blob_data)
           = Return decoded_bytes
         ∧ falls_back DEFAULT_FILE_EXTRACTOR get_file_extension self
             full_path decoded_bytes
         ∧ utf8.valid decoded_bytes = false) →
    outcome (blob_documents DEFAULT_FILE_EXTRACTOR get_file_extension self
               (blob_object, full_path)) = Return [].

(** A blob whose content holds a byte outside the alphabet, in the
    middle of the encoding of "hello". *)
Module Lenient.

Definition i_txt : GitTreeObject := Scenario.entry "i.txt" "blob" "sha_i".

Definition starred : GitBlobResponseModel.t :=
  Scenario.blob "base64" "aGVs*bG8=" "sha_i".

Definition client : GithubClient :=
  {| commit_response _ _ _ := Scenario.not_found;
     branch_response _ _ _ := Scenario.not_found;
     tree_response _ _ _ := Scenario.not_found;
     blob_response _ _ file_sha :=
       if bool_decide (file_sha = "sha_i") then inr starred
       else Scenario.not_found |}.

Definition reader : GithubRepositoryReader :=
  {| _owner := "jerryjliu"; _repo := "gpt_index"; _use_parser := true;
     _verbose := false; _client := client |}.

Definition hello_i : Document :=
  {| text := "hello"; doc_id := None;
     extra_info := {[ "full_path" := "i.txt"; "file_name" := "i.txt";
                      "file_extension" := ".txt" ]} |}.

End Lenient.

(** ** Properties *)

(** *** The library functions on examples *)

Example join_root : os_path.join "" "a.txt" = "a.txt".
Proof. reflexivity. Qed.
Example join_nested : os_path.join "b" "c.bin" = "b/c.bin".
Proof. reflexivity. Qed.
Example join_absolute : os_path.join "b" "/c" = "/c".
Proof. reflexivity. Qed.
Example basename_nested : os_path.basename "b/c.bin" = "c.bin".
Proof. reflexivity. Qed.
Example splitext_nested : os_path.splitext "b.d/c.tar.gz" = ("b.d/c.tar", ".gz").
Proof. reflexivity. Qed.
Example splitext_hidden : os_path.splitext "b/.bashrc" = ("b/.bashrc", "").
Proof. reflexivity. Qed.
Example splitext_nodot : os_path.splitext "b.d/c" = ("b.d/c", "").
Proof. reflexivity. Qed.

Example b64encode_hello :
  base64.b64encode (utf8.encode "hello") = String.list_byte_of_string "aGVsbG8=".
Proof. reflexivity. Qed.
(** The hosting service breaks the content into lines; the line feeds
    are skipped. *)
Example b64decode_hello :
  base64.b64decode
    (String.list_byte_of_string "aGVs" ++ [x0a]
     ++ String.list_byte_of_string "bG8=" ++ [x0a])
  = Return (utf8.encode "hello").
Proof. reflexivity. Qed.
Example b64decode_bad :
  base64.b64decode (String.list_byte_of_string "aGVsb") = Raise binascii_Error.
Proof. reflexivity. Qed.
Example utf8_ok : utf8.valid [xe2; x82; xac] = true.
Proof. reflexivity. Qed.
Example utf8_surrogate : utf8.valid [xed; xa0; x80] = false.
Proof. reflexivity. Qed.
Example utf8_overlong : utf8.valid [xc0; x80] = false.
Proof. reflexivity. Qed.

(** *** Recorded runs form a monad *)

Lemma run_eta {A} (r : run A) : Run (calls r) (outcome r) = r.
Proof. by destruct r. Qed.

Lemma run_bind_ret_l {A B} (a : A) (f : A → run B) : (mret a ≫= f) = f a.
Proof. unfold mbind, run_mbind, run_bind. simpl. apply run_eta. Qed.

Lemma run_bind_ret_r {A} (m : run A) : (m ≫= mret) = m.
Proof.
  unfold mbind, run_mbind, run_bind. destruct m as [cs [a| |]]; simpl; try done.
  by rewrite app_nil_r.
Qed.

Lemma run_bind_assoc {A B C} (m : run A) (f : A → run B) (g : B → run C) :
  ((m ≫= f) ≫= g) = (m ≫= λ a, f a ≫= g).
Proof.
  unfold mbind, run_mbind, run_bind. destruct m as [cs [a| |]]; simpl; try done.
  destruct (f a) as [cs' [b| |]]; simpl; try done.
  by rewrite app_assoc.
Qed.

Lemma outcome_bind_return {A B} (m : run A) (f : A → run B) a :
  outcome m = Return a →
  outcome (m ≫= f) = outcome (f a) ∧ calls (m ≫= f) = calls m ++ calls (f a).
Proof. intros H. unfold mbind, run_mbind, run_bind. by rewrite H. Qed.

Lemma outcome_bind_raise {A B} (m : run A) (f : A → run B) e :
  outcome m = Raise e →
  outcome (m ≫= f) = Raise e ∧ calls (m ≫= f) = calls m.
Proof. intros H. unfold mbind, run_mbind, run_bind. by rewrite H. Qed.

Lemma run_bind_ext {A B} (m : run A) (f g : A → run B) :
  (∀ a, f a = g a) → (m ≫= f) = (m ≫= g).
Proof.
  intros H. unfold mbind, run_mbind, run_bind.
  destruct (outcome m); try done. by rewrite H.
Qed.

Lemma for_each_app {A B} (body : B → A → run B) (l1 l2 : list A) (acc : B) :
  for_each body (l1 ++ l2) acc = (for_each body l1 acc ≫= for_each body l2).
Proof.
  revert acc. induction l1 as [|x l1 IH]; intros acc; cbn [for_each app].
  - by rewrite run_bind_ret_l.
  - rewrite run_bind_assoc. apply run_bind_ext. intros acc'. apply IH.
Qed.

Section Entry_points.

Variable environ : gmap string string.
Variable GithubClient_init : string → GithubClient.
Variable DEFAULT_FILE_EXTRACTOR : gmap string BaseParser.
Variable get_file_extension : string → string.

(** C7. Constructing the reader with no [github_token] argument and no
    [GITHUB_TOKEN] in the environment raises [ValueError], and it does
    only then; with a token from either place the reader is built around
    a client holding that token.  Construction makes no call to the
    API client. *)
Theorem init_requires_credential
    (owner repo : string) (use_parser verbose : bool)
    (github_token : option string) :
  let r := __init__ environ GithubClient_init owner repo use_parser verbose
             github_token in
  calls r = []
  ∧ ((∃ msg, outcome r = Raise (ValueError msg))
     ↔ github_token = None ∧ environ !! "GITHUB_TOKEN" = None)
  ∧ (∀ token,
       github_token = Some token
       ∨ (github_token = None ∧ environ !! "GITHUB_TOKEN" = Some token) →
       outcome r =
         Return {| _owner := owner; _repo := repo;
                   _use_parser := use_parser; _verbose := verbose;
                   _client := GithubClient_init token |}).
Proof.
  unfold __init__, os_getenv.
  destruct github_token as [t|]; [|destruct (environ !! "GITHUB_TOKEN") as [t|] eqn:E];
    cbn; (split; [done|]); split.
  - split; [intros [msg H]; done | intros [H _]; done].
  - intros token [[= ->]|[H _]]; done.
  - split; [intros [msg H]; done | intros [_ H]; done].
  - intros token [H|[_ [= ->]]]; done.
  - split; [intros _; done | intros _; eauto].
  - intros token [H|[_ H]]; done.
Qed.

(** C6. [load_data] raises the [ValueError] of its own argument check,
    having made no API-client call, exactly when [commit_sha] and
    [branch] are both given or both missing; with exactly one of them
    the check passes and the run is the one of the private loader, which
    starts with the request for the commit or for the branch. *)
Theorem load_data_argument_check
    (fuel : nat) (self : GithubRepositoryReader)
    (commit_sha branch : option string) :
  let r := load_data DEFAULT_FILE_EXTRACTOR get_file_extension fuel self
             commit_sha branch in
  ((calls r = [] ∧ ∃ msg, outcome r = Raise (ValueError msg))
   ↔ (is_Some commit_sha ∧ is_Some branch)
     ∨ (commit_sha = None ∧ branch = None))
  ∧ (∀ sha, commit_sha = Some sha → branch = None →
       r = _load_data_from_commit DEFAULT_FILE_EXTRACTOR get_file_extension
             fuel self sha
       ∧ head (calls r)
         = Some (get_commit_call (_owner self) (_repo self) sha))
  ∧ (∀ name, commit_sha = None → branch = Some name →
       r = _load_data_from_branch DEFAULT_FILE_EXTRACTOR get_file_extension
             fuel self name
       ∧ head (calls r)
         = Some (get_branch_call (_owner self) (_repo self) name)).
Proof.
  assert (Hc : ∀ sha, head (calls (_load_data_from_commit
      DEFAULT_FILE_EXTRACTOR get_file_extension fuel self sha))
      = Some (get_commit_call (_owner self) (_repo self) sha)).
  { intros sha. unfold _load_data_from_commit, mbind, run_mbind, run_bind.
    by destruct (outcome (get_commit _ _ _ _)). }
  assert (Hb : ∀ name, head (calls (_load_data_from_branch
      DEFAULT_FILE_EXTRACTOR get_file_extension fuel self name))
      = Some (get_branch_call (_owner self) (_repo self) name)).
  { intros name. unfold _load_data_from_branch, mbind, run_mbind, run_bind.
    by destruct (outcome (get_branch _ _ _ _)). }
  destruct commit_sha as [sha|], branch as [name|]; cbn.
  - split; [|done]. split; [intros _; left; eauto | intros _; eauto].
  - split; [|split; [|done]].
    + split.
      * intros [H _]. specialize (Hc sha). rewrite H in Hc. done.
      * intros [[_ [? ?]]|[? _]]; done.
    + intros ? [= <-] _. split; [done | apply Hc].
  - split; [|split; [done|]].
    + split.
      * intros [H _]. specialize (Hb name). rewrite H in Hb. done.
      * intros [[[? ?] _]|[_ ?]]; done.
    + intros ? _ [= <-]. split; [done | apply Hb].
  - split; [|done]. split; [intros _; right; done | intros _; eauto].
Qed.

End Entry_points.

Section Documents.

Variable DEFAULT_FILE_EXTRACTOR : gmap string BaseParser.
Variable get_file_extension : string → string.
Variable self : GithubRepositoryReader.

Local Abbreviation body :=
  (_generate_documents_body DEFAULT_FILE_EXTRACTOR get_file_extension self).
Local Abbreviation generate :=
  (_generate_documents DEFAULT_FILE_EXTRACTOR get_file_extension self).
Local Abbreviation blob_documents :=
  (blob_documents DEFAULT_FILE_EXTRACTOR get_file_extension self).
Local Abbreviation falls_back :=
  (falls_back DEFAULT_FILE_EXTRACTOR get_file_extension self).

Lemma body_acc documents bp :
  body documents bp = (blob_documents bp ≫= λ new, mret (documents ++ new)).
Proof.
  destruct bp as [blob_object full_path].
  unfold blob_documents, _generate_documents_body, _parse_supported_file.
  unfold get_blob.
  destruct (blob_response _ _ _ _) as [e|blob_data]; [done|].
  cbn.
  repeat (case_match; cbn; try done); rewrite ?app_nil_r; try done.
Qed.

Lemma for_each_body_acc bps acc :
  for_each body bps acc = (generate bps ≫= λ ds, mret (acc ++ ds)).
Proof.
  unfold _generate_documents. revert acc.
  induction bps as [|bp rest IH]; intros acc; cbn [for_each].
  - by rewrite run_bind_ret_l, app_nil_r.
  - rewrite (body_acc acc), (body_acc []), !run_bind_assoc.
    apply run_bind_ext. intros new.
    rewrite !run_bind_ret_l, (IH (acc ++ new)), (IH ([] ++ new)), run_bind_assoc.
    apply run_bind_ext. intros ds.
    by rewrite run_bind_ret_l, app_assoc.
Qed.

Lemma generate_cons bp rest :
  generate (bp :: rest)
  = (blob_documents bp ≫= λ new, generate rest ≫= λ ds, mret (new ++ ds)).
Proof.
  unfold _generate_documents at 1. cbn [for_each].
  apply run_bind_ext. intros new. apply for_each_body_acc.
Qed.

Lemma generate_app l1 l2 :
  generate (l1 ++ l2)
  = (generate l1 ≫= λ d1, generate l2 ≫= λ d2, mret (d1 ++ d2)).
Proof.
  unfold _generate_documents at 1. rewrite for_each_app.
  apply run_bind_ext. intros d1. apply for_each_body_acc.
Qed.

(** The three ways through one iteration. *)

Lemma blob_documents_malformed blob_object full_path blob_data :
  blob_response (_client self) (_owner self) (_repo self)
    (GitTreeResponseModel.sha blob_object) = inr blob_data →
  GitBlobResponseModel.encoding blob_data = "base64" →
  base64.b64decode (GitBlobResponseModel.content blob_data)
    = Raise binascii_Error →
  outcome (blob_documents (blob_object, full_path)) = Return [].
Proof.
  intros Hblob Henc Hdec.
  unfold blob_documents, _generate_documents_body, get_blob.
  rewrite Hblob. cbn. rewrite Henc. cbn. by rewrite Hdec.
Qed.

Lemma blob_documents_parsed blob_object full_path blob_data decoded_bytes
    parser parsed_file :
  blob_response (_client self) (_owner self) (_repo self)
    (GitTreeResponseModel.sha blob_object) = inr blob_data →
  GitBlobResponseModel.encoding blob_data = "base64" →
  base64.b64decode (GitBlobResponseModel.content blob_data)
    = Return decoded_bytes →
  _use_parser self = true →
  DEFAULT_FILE_EXTRACTOR !! get_file_extension full_path = Some parser →
  init_parser parser = inr () →
  parse_file parser decoded_bytes = inr parsed_file →
  outcome (blob_documents (blob_object, full_path))
  = Return [ {| text := str_join blank_line parsed_file;
                doc_id := Some (GitBlobResponseModel.sha blob_data);
                extra_info := {[ "file_path" := full_path;
                                 "file_name" := full_path ]} |} ].
Proof.
  intros Hblob Henc Hdec Huse Hreg Hinit Hparse.
  unfold blob_documents, _generate_documents_body, _parse_supported_file,
    get_blob.
  rewrite Hblob. cbn. rewrite Henc. cbn. rewrite Hdec, Huse. cbn.
  rewrite Hreg, Hinit. cbn. by rewrite Hparse.
Qed.

Lemma blob_documents_fallback blob_object full_path blob_data decoded_bytes :
  blob_response (_client self) (_owner self) (_repo self)
    (GitTreeResponseModel.sha blob_object) = inr blob_data →
  GitBlobResponseModel.encoding blob_data = "base64" →
  base64.b64decode (GitBlobResponseModel.content blob_data)
    = Return decoded_bytes →
  falls_back full_path decoded_bytes →
  outcome (blob_documents (blob_object, full_path))
  = Return
      (if utf8.valid decoded_bytes then
         [ {| text := String.string_of_list_byte decoded_bytes;
              doc_id := None;
              extra_info :=
                {[ "full_path" := full_path;
                   "file_name" := os_path.basename full_path;
                   "file_extension" := (os_path.splitext full_path).2 ]} |} ]
       else []).
Proof.
  intros Hblob Henc Hdec Hfall.
  unfold blob_documents, _generate_documents_body, _parse_supported_file,
    get_blob, utf8.decode.
  rewrite Hblob. cbn. rewrite Henc. cbn. rewrite Hdec.
  destruct Hfall as [Huse|[Hreg|(parser & e & Hreg & Hinit & Hparse)]].
  - rewrite Huse. cbn. by destruct (utf8.valid decoded_bytes).
  - destruct (_use_parser self); cbn; rewrite ?Hreg; cbn;
      by destruct (utf8.valid decoded_bytes).
  - destruct (_use_parser self); cbn; rewrite ?Hreg, ?Hinit; cbn;
      rewrite ?Hparse; cbn; by destruct (utf8.valid decoded_bytes).
Qed.

(** A blob that contributes [new] leaves the rest of the crawl as it is:
    the documents before it, [new], and the documents after it. *)
Lemma generate_middle pre bp rest new :
  outcome (blob_documents bp) = Return new →
  outcome (generate (pre ++ bp :: rest))
  = outcome (generate pre ≫= λ d1, generate rest ≫= λ d2,
             mret (d1 ++ new ++ d2)).
Proof.
  intros Hnew. rewrite generate_app, generate_cons.
  unfold mbind, run_mbind, run_bind.
  destruct (outcome (generate pre)) as [d1| |]; cbn; try done.
  rewrite Hnew. cbn.
  destruct (outcome (generate rest)) as [d2| |]; cbn; done.
Qed.

Lemma generate_skip pre bp rest :
  outcome (blob_documents bp) = Return [] →
  outcome (generate (pre ++ bp :: rest)) = outcome (generate (pre ++ rest)).
Proof.
  intros Hnew. rewrite (generate_middle _ _ _ _ Hnew), generate_app. done.
Qed.

End Documents.

(** *** Base64: decoding undoes encoding *)

Module base64_facts.
Import base64.

Lemma byte_of_to_N b : byte_of_N (Byte.to_N b) = b.
Proof.
  unfold byte_of_N. pose proof (Byte.to_N_bounded b) as Hb.
  rewrite N.mod_small by lia. by rewrite Byte.of_to_N.
Qed.

Lemma forall_bytes (P : byte → bool) :
  forallb P all_bytes = true → ∀ b, P b = true.
Proof.
  intros H b. rewrite forallb_forall in H. apply H.
  apply list_elem_of_In, list_elem_of_fmap.
  exists (N.to_nat (Byte.to_N b)). split.
  - cbn. by rewrite N2Nat.id, byte_of_to_N.
  - apply elem_of_seq. pose proof (Byte.to_N_bounded b). lia.
Qed.

Lemma forall_bytes2 (P : byte → byte → bool) :
  forallb (λ a, forallb (P a) all_bytes) all_bytes = true →
  ∀ a b, P a b = true.
Proof.
  intros H a b.
  apply (forall_bytes (P a)), (forall_bytes (λ a, forallb (P a) all_bytes) H).
Qed.

Lemma forall_below (P : N → bool) (n : nat) :
  forallb P (N.of_nat <$> seq 0 n) = true →
  ∀ v, (v < N.of_nat n)%N → P v = true.
Proof.
  intros H v Hv. rewrite forallb_forall in H. apply H.
  apply list_elem_of_In, list_elem_of_fmap. exists (N.to_nat v). split.
  - by rewrite N2Nat.id.
  - apply elem_of_seq. lia.
Qed.

Lemma table_roundtrip v :
  (v < 64)%N →
  table_a2b_base64 (table_b2a_base64 v) = Some v
  ∧ table_b2a_base64 v ≠ BASE64_PAD.
Proof.
  intros Hv.
  pose proof (forall_below
    (λ v, bool_decide (table_a2b_base64 (table_b2a_base64 v) = Some v)
          && bool_decide (table_b2a_base64 v ≠ BASE64_PAD)) 64) as H.
  cbv beta in H. specialize (H ltac:(vm_compute; reflexivity) v Hv).
  apply andb_prop in H as [H1 H2].
  split; [by apply bool_decide_eq_true in H1 | by apply bool_decide_eq_true in H2].
Qed.

Ltac by_bytes2 P :=
  let H := fresh in
  pose proof (forall_bytes2 P ltac:(vm_compute; reflexivity)) as H;
  cbv beta in H.

Lemma sextets_bounded b1 b2 :
  (sextet1 b1 < 64)%N ∧ (sextet2 b1 b2 < 64)%N
  ∧ (sextet3 b1 b2 < 64)%N ∧ (sextet4 b1 < 64)%N.
Proof.
  by_bytes2 (λ b1 b2, (sextet1 b1 <? 64)%N && (sextet2 b1 b2 <? 64)%N
                      && (sextet3 b1 b2 <? 64)%N && (sextet4 b1 <? 64)%N).
  specialize (H b1 b2).
  repeat (apply andb_prop in H as [H ?]).
  repeat split; by apply N.ltb_lt.
Qed.

Lemma first_byte b1 b2 :
  byte_of_N (N.lor (N.shiftl (sextet1 b1) 2) (N.shiftr (sextet2 b1 b2) 4)) = b1.
Proof.
  by_bytes2 (λ b1 b2, bool_decide
    (byte_of_N (N.lor (N.shiftl (sextet1 b1) 2) (N.shiftr (sextet2 b1 b2) 4))
     = b1)).
  intros. eapply bool_decide_unpack; eauto.
Qed.

Lemma second_left b1 b2 :
  N.land (sextet2 b1 b2) 15 = N.land (sextet2 x00 b2) 15.
Proof.
  by_bytes2 (λ b1 b2, bool_decide
    (N.land (sextet2 b1 b2) 15 = N.land (sextet2 x00 b2) 15)).
  intros. eapply bool_decide_unpack; eauto.
Qed.

Lemma second_byte b2 b3 :
  byte_of_N (N.lor (N.shiftl (N.land (sextet2 x00 b2) 15) 4)
                   (N.shiftr (sextet3 b2 b3) 2)) = b2.
Proof.
  by_bytes2 (λ b2 b3, bool_decide
    (byte_of_N (N.lor (N.shiftl (N.land (sextet2 x00 b2) 15) 4)
                      (N.shiftr (sextet3 b2 b3) 2)) = b2)).
  intros. eapply bool_decide_unpack; eauto.
Qed.

Lemma third_byte b2 b3 :
  byte_of_N (N.lor (N.shiftl (N.land (sextet3 b2 b3) 3) 6) (sextet4 b3)) = b3.
Proof.
  by_bytes2 (λ b2 b3, bool_decide
    (byte_of_N (N.lor (N.shiftl (N.land (sextet3 b2 b3) 3) 6) (sextet4 b3))
     = b3)).
  intros. eapply bool_decide_unpack; eauto.
Qed.

(** One data character read by the loop. *)
Lemma loop_data v rest quad_pos leftchar pads :
  (v < 64)%N →
  a2b_base64_loop (table_b2a_base64 v :: rest) quad_pos leftchar pads
  = match quad_pos with
    | 0 => a2b_base64_loop rest 1 v 0
    | 1 =>
        cons (byte_of_N (N.lor (N.shiftl leftchar 2) (N.shiftr v 4)))
          <$> a2b_base64_loop rest 2 (N.land v 15) 0
    | 2 =>
        cons (byte_of_N (N.lor (N.shiftl leftchar 4) (N.shiftr v 2)))
          <$> a2b_base64_loop rest 3 (N.land v 3) 0
    | _ =>
        cons (byte_of_N (N.lor (N.shiftl leftchar 6) v))
          <$> a2b_base64_loop rest 0 0%N 0
    end.
Proof.
  intros Hv. destruct (table_roundtrip v Hv) as [Htab Hpad].
  cbn [a2b_base64_loop]. rewrite bool_decide_eq_false_2 by done.
  by rewrite Htab.
Qed.

Lemma loop_b64encode n : ∀ s leftchar,
  length s < n →
  a2b_base64_loop (b64encode s) 0 leftchar 0 = Some s.
Proof.
  induction n as [|n IH]; intros s leftchar Hlen; [lia|].
  destruct s as [|b1 [|b2 [|b3 rest]]]; cbn [b64encode].
  - done.
  - destruct (sextets_bounded b1 x00) as (H1 & H2 & _ & _).
    rewrite !loop_data by done.
    rewrite first_byte. done.
  - destruct (sextets_bounded b1 b2) as (H1 & H2 & _ & _).
    destruct (sextets_bounded b2 x00) as (_ & _ & H3 & _).
    rewrite !loop_data by done.
    rewrite first_byte, second_left, second_byte. done.
  - destruct (sextets_bounded b1 b2) as (H1 & H2 & _ & _).
    destruct (sextets_bounded b2 b3) as (_ & _ & H3 & _).
    destruct (sextets_bounded b3 x00) as (_ & _ & _ & H4).
    rewrite !loop_data by done.
    rewrite first_byte, second_left, second_byte, third_byte.
    rewrite (IH rest 0%N) by (cbn in Hlen; lia). done.
Qed.

Lemma b64decode_b64encode s : b64decode (b64encode s) = Return s.
Proof.
  unfold b64decode. by rewrite (loop_b64encode (S (length s))) by lia.
Qed.

End base64_facts.

(** *** One blob at a time *)

Section Blobs.

Variable DEFAULT_FILE_EXTRACTOR : gmap string BaseParser.
Variable get_file_extension : string → string.
Variable self : GithubRepositoryReader.

Local Abbreviation generate :=
  (_generate_documents DEFAULT_FILE_EXTRACTOR get_file_extension self).
Local Abbreviation blob_documents :=
  (blob_documents DEFAULT_FILE_EXTRACTOR get_file_extension self).
Local Abbreviation falls_back :=
  (falls_back DEFAULT_FILE_EXTRACTOR get_file_extension self).

(** C3. With the parsers switched on, a blob whose extension has a
    registered parser that initialises and parses without raising
    contributes exactly one Document: its [doc_id] is the sha of the
    fetched blob, its text the parser's segments joined by a blank line,
    its metadata [file_path] and [file_name], both the full path.  The
    Document is part of the result of every crawl over the blob that
    returns. *)
Theorem parsed_blob_yields_one_document
    (blob_object : GitTreeObject) (full_path : string)
    (blob_data : GitBlobResponseModel.t) (decoded_bytes : list byte)
    (parser : BaseParser) (parsed_file : list string) :
  blob_response (_client self) (_owner self) (_repo self)
    (GitTreeResponseModel.sha blob_object) = inr blob_data →
  GitBlobResponseModel.encoding blob_data = "base64" →
  base64.b64decode (GitBlobResponseModel.content blob_data)
    = Return decoded_bytes →
  _use_parser self = true →
  DEFAULT_FILE_EXTRACTOR !! get_file_extension full_path = Some parser →
  init_parser parser = inr () →
  parse_file parser decoded_bytes = inr parsed_file →
  let document :=
    {| text := str_join blank_line parsed_file;
       doc_id := Some (GitBlobResponseModel.sha blob_data);
       extra_info := {[ "file_path" := full_path;
                        "file_name" := full_path ]} |} in
  outcome (blob_documents (blob_object, full_path)) = Return [document]
  ∧ extra_info document !! "file_name" = Some full_path
  ∧ extra_info document !! "file_path" = Some full_path
  ∧ ∀ pre rest, outcome (generate (pre ++ (blob_object, full_path) :: rest))
      = outcome (generate pre ≫= λ d1, generate rest ≫= λ d2,
                 mret (d1 ++ document :: d2)).
Proof.
  intros Hblob Henc Hdec Huse Hreg Hinit Hparse document.
  assert (Hone : outcome (blob_documents (blob_object, full_path))
                 = Return [document])
    by (eapply blob_documents_parsed; eauto).
  split; [done|]. split; [|split].
  - by simplify_map_eq.
  - by simplify_map_eq.
  - intros pre rest. by rewrite (generate_middle _ _ _ _ _ _ _ Hone).
Qed.

(** C4. A blob whose content is the base64 encoding of the UTF-8 text
    [C], and for whose extension no parser is registered, contributes
    one Document whose text is [C] and whose metadata is [full_path],
    [file_name] (the basename) and [file_extension] (the extension of
    the full path); the Document is part of the result of every crawl
    over the blob that returns. *)
Theorem text_blob_round_trip
    (blob_object : GitTreeObject) (full_path : string)
    (blob_data : GitBlobResponseModel.t) (C : string) :
  blob_response (_client self) (_owner self) (_repo self)
    (GitTreeResponseModel.sha blob_object) = inr blob_data →
  GitBlobResponseModel.encoding blob_data = "base64" →
  utf8.valid (utf8.encode C) = true →
  GitBlobResponseModel.content blob_data = base64.b64encode (utf8.encode C) →
  DEFAULT_FILE_EXTRACTOR !! get_file_extension full_path = None →
  let document :=
    {| text := C;
       doc_id := None;
       extra_info :=
         {[ "full_path" := full_path;
            "file_name" := os_path.basename full_path;
            "file_extension" := (os_path.splitext full_path).2 ]} |} in
  outcome (blob_documents (blob_object, full_path)) = Return [document]
  ∧ ∀ pre rest, outcome (generate (pre ++ (blob_object, full_path) :: rest))
      = outcome (generate pre ≫= λ d1, generate rest ≫= λ d2,
                 mret (d1 ++ document :: d2)).
Proof.
  intros Hblob Henc Hvalid Hcontent Hreg document.
  assert (Hone : outcome (blob_documents (blob_object, full_path))
                 = Return [document]).
  { erewrite blob_documents_fallback; eauto.
    - rewrite Hvalid. unfold utf8.encode, document.
      by rewrite String.string_of_list_byte_of_string.
    - rewrite Hcontent. apply base64_facts.b64decode_b64encode.
    - right. by left. }
  split; [done|].
  intros pre rest. by rewrite (generate_middle _ _ _ _ _ _ _ Hone).
Qed.


(** C1, as the code has it.  When the registered parser raises while
    parsing, the blob gets no parser-made Document and the reader goes
    on to the plain-text fallback: the blob contributes the fallback
    Document when its bytes are UTF-8 and nothing otherwise.  Nothing is
    raised, and the rest of the crawl is as before. *)
Theorem parser_failure_falls_back
    (blob_object : GitTreeObject) (full_path : string)
    (blob_data : GitBlobResponseModel.t) (decoded_bytes : list byte)
    (parser : BaseParser) (e : exn) :
  blob_response (_client self) (_owner self) (_repo self)
    (GitTreeResponseModel.sha blob_object) = inr blob_data →
  GitBlobResponseModel.encoding blob_data = "base64" →
  base64.b64decode (GitBlobResponseModel.content blob_data)
    = Return decoded_bytes →
  _use_parser self = true →
  DEFAULT_FILE_EXTRACTOR !! get_file_extension full_path = Some parser →
  init_parser parser = inr () →
  parse_file parser decoded_bytes = inl e →
  let new :=
    if utf8.valid decoded_bytes then
      [ {| text := String.string_of_list_byte decoded_bytes;
           doc_id := None;
           extra_info :=
             {[ "full_path" := full_path;
                "file_name" := os_path.basename full_path;
                "file_extension" := (os_path.splitext full_path).2 ]} |} ]
    else [] in
  outcome (blob_documents (blob_object, full_path)) = Return new
  ∧ ∀ pre rest, outcome (generate (pre ++ (blob_object, full_path) :: rest))
      = outcome (generate pre ≫= λ d1, generate rest ≫= λ d2,
                 mret (d1 ++ new ++ d2)).
Proof.
  intros Hblob Henc Hdec Huse Hreg Hinit Hparse new.
  assert (Hnew : outcome (blob_documents (blob_object, full_path))
                 = Return new).
  { eapply blob_documents_fallback; eauto.
    right. right. by exists parser, e. }
  split; [done|].
  intros pre rest. by apply generate_middle.
Qed.

(** C8. For a fetched blob whose encoding is "base64" the assertion
    passes: the iteration can then raise only what the initialisation of
    a parser raised.  For any other encoding the iteration raises
    [AssertionError], and so does the crawl, right after the request for
    that blob: no later blob is requested and no document is returned. *)
Theorem encoding_assertion
    (blob_object : GitTreeObject) (full_path : string)
    (blob_data : GitBlobResponseModel.t) :
  blob_response (_client self) (_owner self) (_repo self)
    (GitTreeResponseModel.sha blob_object) = inr blob_data →
  (GitBlobResponseModel.encoding blob_data = "base64" →
   ∀ e, outcome (blob_documents (blob_object, full_path)) = Raise e →
     _use_parser self = true
     ∧ ∃ parser,
         DEFAULT_FILE_EXTRACTOR !! get_file_extension full_path = Some parser
         ∧ init_parser parser = inl e)
  ∧ (GitBlobResponseModel.encoding blob_data ≠ "base64" →
     let failure :=
       AssertionError ("blob encoding "
         +:+ GitBlobResponseModel.encoding blob_data +:+ " not supported") in
     outcome (blob_documents (blob_object, full_path)) = Raise failure
     ∧ ∀ pre rest documents,
         outcome (generate pre) = Return documents →
         outcome (generate (pre ++ (blob_object, full_path) :: rest))
           = Raise failure
         ∧ calls (generate (pre ++ (blob_object, full_path) :: rest))
           = calls (generate pre)
             ++ [get_blob_call (_owner self) (_repo self)
                   (GitTreeResponseModel.sha blob_object)]).
Proof.
  intros Hblob. split.
  - intros Henc e.
    unfold blob_documents, _generate_documents_body, _parse_supported_file,
      get_blob, base64.b64decode, utf8.decode.
    rewrite Hblob. cbn. rewrite Henc. cbn.
    repeat (case_match; cbn; try done).
    all: intros [= <-]; split; [done|]; eexists; split; [done|].
    all: by destruct (init_parser _) as [?|[]]; simplify_eq/=.
  - intros Henc failure.
    assert (Hone : blob_documents (blob_object, full_path)
              = Run [get_blob_call (_owner self) (_repo self)
                       (GitTreeResponseModel.sha blob_object)]
                    (Raise failure)).
    { unfold blob_documents, _generate_documents_body, get_blob.
      rewrite Hblob. cbn. by rewrite bool_decide_eq_false_2. }
    split; [by rewrite Hone|].
    intros pre rest documents Hpre.
    rewrite generate_app, generate_cons, Hone.
    unfold mbind, run_mbind, run_bind. rewrite Hpre. done.
Qed.

End Blobs.

(** *** The tree walk *)

Section Walk.

Variable self : GithubRepositoryReader.

Local Abbreviation served_by_client :=
  (served (_client self) (_owner self) (_repo self)).
Local Abbreviation node_served_by_client :=
  (node_served (_client self) (_owner self) (_repo self)).
Local Abbreviation walk_body := (walk_body self).

Lemma _recurse_tree_S fuel tree_sha current_path current_depth :
  _recurse_tree (S fuel) self tree_sha current_path current_depth
  = (tree_data ← get_tree (_client self) (_owner self) (_repo self) tree_sha;
     for_each (walk_body fuel current_path current_depth)
       (GitTreeResponseModel.tree tree_data) []).
Proof. reflexivity. Qed.

Lemma full_path_snoc segments name :
  full_path (segments ++ [name]) = os_path.join (full_path segments) name.
Proof. unfold full_path. by rewrite foldl_app. Qed.

Lemma height_le_heights (n : Node) nodes : n ∈ nodes → height n ≤ heights nodes.
Proof.
  unfold heights. induction 1 as [n l|n m l _ IH]; cbn; lia.
Qed.

Lemma recurse_tree_served fuel : ∀ tree_sha nodes segments current_depth,
  served_by_client tree_sha nodes →
  heights nodes < fuel →
  outcome (_recurse_tree fuel self tree_sha (full_path segments) current_depth)
  = Return (pathed <$> (nodes ≫= blob_entries segments)).
Proof.
  induction fuel as [|fuel IH]; intros tree_sha nodes segments current_depth
    Hserved Hfuel; [lia|].
  destruct Hserved as [tree_sha nodes Htree Hnodes].
  rewrite _recurse_tree_S. unfold get_tree. rewrite Htree.
  unfold mbind at 1, run_mbind, run_bind. cbn.
  assert (Hloop : ∀ acc,
    outcome (for_each (walk_body fuel (full_path segments) current_depth)
               (entry_of <$> nodes) acc)
    = Return (acc ++ (pathed <$> (nodes ≫= blob_entries segments)))).
  { clear Htree. revert Hfuel.
    induction Hnodes as [|n nodes Hn Hnodes IHnodes]; intros Hfuel acc.
    - cbn. by rewrite app_nil_r.
    - assert (Hh : height n ≤ fuel ∧ heights nodes < S fuel).
      { pose proof (height_le_heights n (n :: nodes) ltac:(left)).
        unfold heights in *. cbn in *. lia. }
      destruct Hh as [Hh Hhs]. specialize (IHnodes Hhs).
      rewrite fmap_cons. cbn [for_each].
      assert (Hstep : outcome (walk_body fuel (full_path segments)
                        current_depth acc (entry_of n))
                      = Return (acc ++ (pathed <$> blob_entries segments n))).
      { unfold walk_body. destruct Hn as [entry Hty|entry children Hty Hch]; cbn.
        - rewrite bool_decide_eq_false_2 by done.
          case_bool_decide; cbn; [|by rewrite app_nil_r].
          unfold pathed. cbn. by rewrite full_path_snoc.
        - rewrite bool_decide_eq_true_2 by done.
          rewrite <- full_path_snoc.
          unfold mbind at 1, run_mbind, run_bind.
          rewrite (IH _ children) by (done || (cbn in Hh; unfold heights; lia)).
          done. }
      destruct (outcome_bind_return _
        (λ acc', for_each (walk_body fuel (full_path segments) current_depth)
                   (entry_of <$> nodes) acc') _ Hstep) as [-> _].
      rewrite IHnodes by done. cbn. by rewrite fmap_app, app_assoc. }
  apply Hloop.
Qed.

End Walk.

(** *** Full paths of a well-formed tree are distinct *)

Section Paths.

Lemma append_cons x (a b : string) : String x a +:+ b = String x (a +:+ b).
Proof. reflexivity. Qed.

Lemma append_nil (b : string) : "" +:+ b = b.
Proof. reflexivity. Qed.

Lemma append_assoc (a b c : string) : (a +:+ b) +:+ c = a +:+ (b +:+ c).
Proof.
  induction a as [|x a IH]; [done|]. rewrite !append_cons. by f_equal.
Qed.

Lemma append_empty_r (a : string) : a +:+ "" = a.
Proof.
  induction a as [|x a IH]; [done|]. rewrite append_cons. by f_equal.
Qed.

Lemma segment_inv p :
  is_segment p = true →
  ∃ c p', p = String c p' ∧ c ≠ "/"%char ∧ slash_free p' = true.
Proof.
  unfold is_segment. intros [Hne Hfree]%andb_prop.
  destruct p as [|c p']; [done|].
  cbn [slash_free] in Hfree. apply andb_prop in Hfree as [Hc Hp].
  exists c, p'. split; [done|]. split; [|done].
  apply negb_true_iff, bool_decide_eq_false in Hc. done.
Qed.

Lemma endswith_app a b c :
  b ≠ "" → endswith_char (a +:+ b) c = endswith_char b c.
Proof.
  intros Hb. induction a as [|x a IH]; [done|].
  rewrite append_cons. cbn [endswith_char].
  rewrite IH. destruct (a +:+ b) eqn:E; [|done].
  destruct a, b; done.
Qed.

Lemma endswith_slash_free p :
  slash_free p = true → endswith_char p "/" = false.
Proof.
  induction p as [|c p IH]; [done|].
  cbn [slash_free]. intros [Hc Hp]%andb_prop.
  apply negb_true_iff in Hc.
  destruct p as [|c' p'].
  - exact Hc.
  - cbn [endswith_char]. by apply IH.
Qed.

Lemma startswith_other c p' :
  c ≠ "/"%char → startswith (String c p') "/" = false.
Proof.
  intros Hc. unfold startswith. cbn [String.prefix].
  by destruct (ascii_dec "/" c) as [<-|_].
Qed.

Lemma join_segment current_path p :
  clean current_path → is_segment p = true →
  os_path.join current_path p = dir_prefix current_path +:+ p.
Proof.
  intros Hclean (c & p' & -> & Hc & Hp)%segment_inv.
  unfold os_path.join, dir_prefix.
  rewrite startswith_other by done.
  rewrite Hclean, orb_false_r.
  case_bool_decide as Hempty; [by rewrite Hempty | by rewrite append_assoc].
Qed.

Lemma clean_join current_path p :
  is_segment p = true → clean (dir_prefix current_path +:+ p).
Proof.
  intros Hseg. unfold clean.
  destruct (segment_inv p Hseg) as (c & p' & -> & Hc & Hp).
  rewrite endswith_app by done.
  apply endswith_slash_free. cbn [slash_free]. rewrite Hp.
  by rewrite bool_decide_eq_false_2.
Qed.

Lemma join_nonempty current_path p :
  is_segment p = true → dir_prefix current_path +:+ p ≠ "".
Proof.
  intros (c & p' & -> & _)%segment_inv.
  destruct (dir_prefix current_path); [by rewrite append_nil | by rewrite append_cons].
Qed.

Lemma under_refl x : under x x.
Proof. exists "". split; [by rewrite append_empty_r | by left]. Qed.

Lemma under_step x p q :
  x ≠ "" → under (dir_prefix x +:+ p) q → under x q.
Proof.
  intros Hx (t & -> & _). unfold dir_prefix.
  rewrite bool_decide_eq_false_2 by done.
  exists ("/" +:+ p +:+ t). split; [by rewrite !append_assoc|].
  right. by exists (p +:+ t).
Qed.

Lemma segment_split p1 : ∀ p2 t1 t2,
  slash_free p1 = true → slash_free p2 = true →
  tail_ok t1 → tail_ok t2 →
  p1 +:+ t1 = p2 +:+ t2 → p1 = p2.
Proof.
  induction p1 as [|c1 p1 IH]; intros [|c2 p2] t1 t2 H1 H2 Ht1 Ht2 Heq;
    rewrite ?append_cons, ?append_nil in Heq; cbn in H1, H2; try done.
  - apply andb_prop in H2 as [Hc _]. apply negb_true_iff, bool_decide_eq_false in Hc.
    destruct Ht1 as [->|[r ->]]; [done|]. injection Heq as Hc2 _. congruence.
  - apply andb_prop in H1 as [Hc _]. apply negb_true_iff, bool_decide_eq_false in Hc.
    destruct Ht2 as [->|[r ->]]; [done|]. injection Heq as Hc1 _. congruence.
  - apply andb_prop in H1 as [_ H1]. apply andb_prop in H2 as [_ H2].
    injection Heq as -> Heq. f_equal. by apply (IH p2 t1 t2).
Qed.

Lemma under_disjoint current_path p1 p2 q :
  is_segment p1 = true → is_segment p2 = true →
  under (dir_prefix current_path +:+ p1) q →
  under (dir_prefix current_path +:+ p2) q →
  p1 = p2.
Proof.
  unfold is_segment.
  intros [_ H1]%andb_prop [_ H2]%andb_prop (t1 & -> & Ht1) (t2 & Heq & Ht2).
  rewrite !append_assoc in Heq. apply String.app_inj in Heq.
  by apply (segment_split p1 p2 t1 t2).
Qed.

End Paths.

Section Distinct.

Lemma Node_forall_ind (P : Node → Prop) :
  (∀ entry, P (Leaf entry)) →
  (∀ entry children, Forall P children → P (Subtree entry children)) →
  ∀ n, P n.
Proof.
  intros Hleaf Hsub. fix IH 1. intros [entry|entry children].
  - apply Hleaf.
  - apply Hsub. induction children as [|c children IHc]; constructor.
    + apply IH.
    + apply IHc.
Qed.

Lemma paths_of_nodes segments nodes :
  (pathed <$> (nodes ≫= blob_entries segments)).*2
  = nodes ≫= node_paths segments.
Proof.
  induction nodes as [|n nodes IH]; [done|].
  rewrite !bind_cons, !fmap_app. by rewrite IH.
Qed.

Lemma count_blob_entries n : ∀ segments,
  length (blob_entries segments n) = count_blobs n.
Proof.
  induction n as [entry|entry children IH] using Node_forall_ind;
    intros segments; cbn [blob_entries count_blobs].
  - by case_bool_decide.
  - induction IH as [|c children Hc _ IHchildren]; [done|].
    rewrite bind_cons, length_app, Hc, IHchildren. done.
Qed.

Lemma count_blob_entries_list nodes segments :
  length (nodes ≫= blob_entries segments)
  = foldr plus 0 (count_blobs <$> nodes).
Proof.
  induction nodes as [|n nodes IH]; [done|].
  rewrite bind_cons, length_app, count_blob_entries, IH. done.
Qed.

Lemma names_ok_cons n nodes :
  names_ok (n :: nodes) = true →
  (name_of n ∉ (name_of <$> nodes))
  ∧ is_segment (name_of n) = true
  ∧ names_ok nodes = true.
Proof.
  unfold names_ok. rewrite fmap_cons. cbn [forallb].
  intros [Hdup [Hseg Hsegs]%andb_prop]%andb_prop.
  apply bool_decide_eq_true, NoDup_cons in Hdup as [Hnotin Hdup].
  split; [done|]. split; [done|].
  apply andb_true_intro. split; [by apply bool_decide_eq_true | done].
Qed.

Lemma names_ok_segment nodes n :
  names_ok nodes = true → n ∈ nodes → is_segment (name_of n) = true.
Proof.
  intros Hok Hin. induction Hin as [n nodes|n m nodes _ IH];
    apply names_ok_cons in Hok as (_ & Hseg & Hok); auto.
Qed.

Lemma nodes_paths_NoDup segments nodes :
  names_ok nodes = true →
  (∀ n, n ∈ nodes →
     NoDup (node_paths segments n)
     ∧ ∀ q, q ∈ node_paths segments n →
         under (dir_prefix (full_path segments) +:+ name_of n) q) →
  NoDup (nodes ≫= node_paths segments).
Proof.
  induction nodes as [|n nodes IH]; intros Hok Hnodes; [constructor|].
  pose proof (λ n', names_ok_segment (n :: nodes) n' Hok) as Hsegs.
  apply names_ok_cons in Hok as (Hnotin & Hseg & Hok).
  rewrite bind_cons. apply NoDup_app. split; [|split].
  - apply Hnodes. left.
  - intros q Hq (n' & Hq' & Hn')%list_elem_of_bind.
    apply Hnotin. apply list_elem_of_fmap. exists n'. split; [|done].
    eapply (under_disjoint (full_path segments) _ _ q).
    + done.
    + apply Hsegs. by right.
    + apply Hnodes; [left | done].
    + apply Hnodes; [by right | done].
  - apply IH; [done|]. intros n' Hn'. apply Hnodes. by right.
Qed.

Lemma node_paths_under n : ∀ segments,
  well_formed n = true →
  is_segment (name_of n) = true →
  clean (full_path segments) →
  NoDup (node_paths segments n)
  ∧ ∀ q, q ∈ node_paths segments n →
      under (dir_prefix (full_path segments) +:+ name_of n) q.
Proof.
  induction n as [entry|entry children IH] using Node_forall_ind;
    intros segments Hwf Hseg Hclean.
  - unfold node_paths, name_of. cbn [blob_entries entry_of].
    case_bool_decide; cbn.
    + rewrite full_path_snoc, join_segment by done.
      split; [apply NoDup_singleton|].
      intros q ->%list_elem_of_singleton. apply under_refl.
    + split; [constructor|]. intros q Hq. by apply elem_of_nil in Hq.
  - cbn [well_formed] in Hwf. apply andb_prop in Hwf as [Hok Hwf].
    unfold node_paths. cbn [blob_entries]. rewrite paths_of_nodes.
    set (segments' := segments ++ [GitTreeResponseModel.path entry]).
    assert (Hcur : full_path segments'
                   = dir_prefix (full_path segments)
                     +:+ name_of (Subtree entry children)).
    { unfold segments'. by rewrite full_path_snoc, join_segment. }
    assert (Hchildren : ∀ c, c ∈ children →
      NoDup (node_paths segments' c)
      ∧ ∀ q, q ∈ node_paths segments' c →
          under (dir_prefix (full_path segments') +:+ name_of c) q).
    { intros c Hc. rewrite Forall_forall in IH. apply IH; [done|..].
      - rewrite forallb_forall in Hwf. by apply Hwf, list_elem_of_In.
      - by eapply names_ok_segment.
      - rewrite Hcur. by apply clean_join. }
    split; [by apply nodes_paths_NoDup|].
    intros q (c & Hq & Hc)%list_elem_of_bind. rewrite <- Hcur.
    eapply under_step; [|by apply Hchildren].
    rewrite Hcur. by apply join_nonempty.
Qed.

Lemma well_formed_paths_NoDup nodes :
  well_formed_tree nodes = true →
  NoDup ((pathed <$> (nodes ≫= blob_entries [])).*2).
Proof.
  intros [Hok Hwf]%andb_prop. rewrite paths_of_nodes.
  apply nodes_paths_NoDup; [done|].
  intros n Hn. apply node_paths_under.
  - rewrite forallb_forall in Hwf. by apply Hwf, list_elem_of_In.
  - by eapply names_ok_segment.
  - done.
Qed.

End Distinct.

(** *** The walk of a served tree, and the crawl over it *)

Section Crawl.

Variable DEFAULT_FILE_EXTRACTOR : gmap string BaseParser.
Variable get_file_extension : string → string.
Variable self : GithubRepositoryReader.

Local Abbreviation generate :=
  (_generate_documents DEFAULT_FILE_EXTRACTOR get_file_extension self).
Local Abbreviation blob_documents :=
  (blob_documents DEFAULT_FILE_EXTRACTOR get_file_extension self).
Local Abbreviation crawl :=
  (load_data DEFAULT_FILE_EXTRACTOR get_file_extension).
Local Abbreviation resolves := (resolves self).

(** C2. When the client serves a tree for the root sha, the walk
    returns, for every fuel above the height of the tree, the blob
    entries of the tree at any depth: as many pairs as the tree has blob
    entries, each with the path joined from the names of the enclosing
    trees and its own name; in a tree whose names are single segments,
    distinct within each tree, the full paths are pairwise distinct. *)
Theorem walk_lists_every_blob_once (tree_sha : string) (nodes : list Node) :
  served (_client self) (_owner self) (_repo self) tree_sha nodes →
  ∃ blobs_and_full_paths,
    (∀ fuel, heights nodes < fuel →
       outcome (_recurse_tree fuel self tree_sha "" 0)
       = Return blobs_and_full_paths)
    ∧ length blobs_and_full_paths = foldr plus 0 (count_blobs <$> nodes)
    ∧ blobs_and_full_paths = pathed <$> (nodes ≫= blob_entries [])
    ∧ (well_formed_tree nodes = true → NoDup (blobs_and_full_paths.*2)).
Proof.
  intros Hserved. exists (pathed <$> (nodes ≫= blob_entries [])).
  split; [|split; [|split]].
  - intros fuel Hfuel. by apply (recurse_tree_served self fuel _ nodes []).
  - by rewrite length_fmap, count_blob_entries_list.
  - done.
  - apply well_formed_paths_NoDup.
Qed.

Lemma blob_documents_at_most_one bp new :
  outcome (blob_documents bp) = Return new → length new ≤ 1.
Proof.
  destruct bp as [blob_object full_path].
  unfold blob_documents, _generate_documents_body, _parse_supported_file,
    get_blob.
  destruct (blob_response _ _ _ _) as [e|blob_data]; [done|]. cbn.
  repeat (case_match; cbn; try done); intros [= <-]; cbn; lia.
Qed.

Lemma generate_return_iff bps documents :
  outcome (generate bps) = Return documents
  ↔ ∃ contributions,
      Forall2 (λ bp new, outcome (blob_documents bp) = Return new)
        bps contributions
      ∧ documents = concat contributions.
Proof.
  revert documents. induction bps as [|bp rest IH]; intros documents.
  - cbn. split.
    + intros [= <-]. exists []. by split; [constructor|].
    + intros (contributions & Hall & ->). by inversion Hall.
  - rewrite generate_cons. unfold mbind, run_mbind, run_bind. split.
    + destruct (outcome (blob_documents bp)) as [new| |] eqn:Hbp; [|done..].
      cbn. destruct (outcome (generate rest)) as [ds| |] eqn:Hrest; [|done..].
      cbn. intros [= <-].
      destruct (proj1 (IH ds) eq_refl) as (contributions & Hall & ->).
      exists (new :: contributions). by split; [constructor|].
    + intros (contributions & Hall & ->).
      inversion Hall as [|? new ? rest' Hbp Hrest]; subst.
      rewrite Hbp. cbn.
      rewrite (proj2 (IH (concat rest')) (ex_intro _ rest' (conj Hrest eq_refl))).
      done.
Qed.

Lemma load_data_resolved fuel commit_sha branch tree_sha :
  resolves commit_sha branch tree_sha →
  outcome (crawl fuel self commit_sha branch)
  = outcome (_recurse_tree fuel self tree_sha "" 0 ≫= generate).
Proof.
  intros [(sha & response & -> & -> & Hresp & ->)
         |(name & response & -> & -> & Hresp & ->)]; cbn.
  - unfold _load_data_from_commit, get_commit. rewrite Hresp.
    unfold mbind at 1, run_mbind at 1, run_bind at 1. done.
  - unfold _load_data_from_branch, get_branch. rewrite Hresp.
    unfold mbind at 1, run_mbind at 1, run_bind at 1. done.
Qed.

Lemma load_data_return fuel commit_sha branch documents :
  outcome (crawl fuel self commit_sha branch) = Return documents →
  ∃ tree_sha blobs_and_paths,
    resolves commit_sha branch tree_sha
    ∧ outcome (_recurse_tree fuel self tree_sha "" 0) = Return blobs_and_paths
    ∧ outcome (generate blobs_and_paths) = Return documents.
Proof.
  intros Hret.
  assert (Hres : ∃ tree_sha, resolves commit_sha branch tree_sha).
  { destruct commit_sha as [sha|], branch as [name|]; cbn in Hret; try done.
    - unfold _load_data_from_commit, get_commit in Hret.
      destruct (commit_response _ _ _ sha) as [e|response] eqn:Hresp; [done|].
      eexists. left. by exists sha, response.
    - unfold _load_data_from_branch, get_branch in Hret.
      destruct (branch_response _ _ _ name) as [e|response] eqn:Hresp; [done|].
      eexists. right. by exists name, response. }
  destruct Hres as [tree_sha Hres]. exists tree_sha.
  rewrite (load_data_resolved _ _ _ _ Hres) in Hret.
  unfold mbind, run_mbind, run_bind in Hret.
  destruct (outcome (_recurse_tree fuel self tree_sha "" 0))
    as [blobs_and_paths| |]; [|done..].
  by exists blobs_and_paths.
Qed.

Lemma generate_sources bps documents :
  outcome (generate bps) = Return documents →
  ∃ sources,
    sources `sublist_of` bps
    ∧ Forall2 (λ bp document,
                 outcome (blob_documents bp) = Return [document])
        sources documents.
Proof.
  intros (contributions & Hall & ->)%generate_return_iff.
  induction Hall as [|bp new bps contributions Hbp _ (sources & Hsub & Hsrc)].
  - exists []. by split; [|constructor].
  - pose proof (blob_documents_at_most_one _ _ Hbp) as Hlen.
    destruct new as [|document [|? ?]]; cbn in Hlen; [| |lia].
    + exists sources. split; [by apply sublist_cons | done].
    + exists (bp :: sources). split; [by apply sublist_skip|].
      by constructor.
Qed.

(** C9. In a crawl that returns, every Document comes from a blob of
    the walk and no blob gives two: the documents are the single
    contributions of a sublist of the walked pairs, so there are at most
    as many documents as pairs. *)
Theorem documents_from_distinct_blobs
    (fuel : nat) (commit_sha branch : option string)
    (documents : list Document) :
  outcome (crawl fuel self commit_sha branch) = Return documents →
  ∃ tree_sha blobs_and_paths sources,
    resolves commit_sha branch tree_sha
    ∧ outcome (_recurse_tree fuel self tree_sha "" 0) = Return blobs_and_paths
    ∧ length documents ≤ length blobs_and_paths
    ∧ sources `sublist_of` blobs_and_paths
    ∧ Forall2 (λ bp document,
                 outcome (blob_documents bp) = Return [document])
        sources documents.
Proof.
  intros (tree_sha & blobs_and_paths & Hres & Hwalk & Hgen)%load_data_return.
  destruct (generate_sources _ _ Hgen) as (sources & Hsub & Hsrc).
  exists tree_sha, blobs_and_paths, sources.
  repeat split; try done.
  rewrite <- (Forall2_length _ _ _ Hsrc). by apply sublist_length.
Qed.

(** C10. In a crawl over a served tree, the walk lists the blobs entry
    by entry in the order of the client's answers, the blobs of a
    subtree in the place of its entry, and the crawl returns exactly
    when every blob of that list contributes; the documents are then
    the contributions concatenated in the order of the list. *)
Theorem documents_in_walk_order
    (fuel : nat) (commit_sha branch : option string) (tree_sha : string)
    (nodes : list Node) (documents : list Document) :
  resolves commit_sha branch tree_sha →
  served (_client self) (_owner self) (_repo self) tree_sha nodes →
  heights nodes < fuel →
  outcome (_recurse_tree fuel self tree_sha "" 0)
    = Return (pathed <$> (nodes ≫= blob_entries []))
  ∧ (outcome (crawl fuel self commit_sha branch) = Return documents
     ↔ ∃ contributions,
         Forall2 (λ bp new, outcome (blob_documents bp) = Return new)
           (pathed <$> (nodes ≫= blob_entries [])) contributions
         ∧ documents = concat contributions).
Proof.
  intros Hres Hserved Hfuel.
  pose proof (recurse_tree_served self fuel _ nodes [] 0 Hserved Hfuel)
    as Hwalk.
  change (full_path []) with "" in Hwalk.
  split; [done|].
  rewrite (load_data_resolved _ _ _ _ Hres).
  destruct (outcome_bind_return _ generate _ Hwalk) as [-> _].
  apply generate_return_iff.
Qed.

End Crawl.

(** *** The reader on the scenario *)

Ltac evaluate := vm_compute; reflexivity.

Lemma scenario_served :
  served (_client (Scenario.reader true)) "jerryjliu" "gpt_index" "sha_root"
    Scenario.nodes.
Proof.
  apply served_tree; [evaluate|].
  apply List.Forall_cons; [apply served_leaf; discriminate|].
  apply List.Forall_cons.
  { apply served_subtree; [evaluate|].
    apply served_tree; [evaluate|].
    apply List.Forall_cons; [apply served_leaf; discriminate|].
    apply List.Forall_nil. }
  apply List.Forall_cons; [apply served_leaf; discriminate|].
  apply List.Forall_nil.
Qed.

(** The two crawls of the specification: no parser is registered, and a
    parser of [md] is. *)
Example crawl_without_parsers :
  outcome (load_data ∅ Scenario.extension 2 (Scenario.reader true)
             (Some "commit_1") None)
  = Return [Scenario.hello_text; Scenario.title_text].
Proof. evaluate. Qed.

Example crawl_with_markdown :
  outcome (load_data Scenario.with_markdown Scenario.extension 2
             (Scenario.reader true) None (Some "main"))
  = Return [Scenario.hello_text; Scenario.title_parsed].
Proof. evaluate. Qed.

Example crawl_requests :
  calls (load_data Scenario.with_markdown Scenario.extension 2
           (Scenario.reader true) (Some "commit_1") None)
  = [get_commit_call "jerryjliu" "gpt_index" "commit_1";
     get_tree_call "jerryjliu" "gpt_index" "sha_root";
     get_tree_call "jerryjliu" "gpt_index" "sha_b";
     get_blob_call "jerryjliu" "gpt_index" "sha_a";
     get_blob_call "jerryjliu" "gpt_index" "sha_c";
     get_blob_call "jerryjliu" "gpt_index" "sha_d"].
Proof. evaluate. Qed.

Example crawl_both_arguments :
  load_data Scenario.with_markdown Scenario.extension 2
    (Scenario.reader true) (Some "commit_1") (Some "main")
  = Run [] (Raise (ValueError "You can only specify one of commit or branch.")).
Proof. evaluate. Qed.

Example crawl_unknown_commit :
  load_data Scenario.with_markdown Scenario.extension 2
    (Scenario.reader true) (Some "commit_2") None
  = Run [get_commit_call "jerryjliu" "gpt_index" "commit_2"]
        (Raise (OtherException "HTTPError")).
Proof. evaluate. Qed.

(** The tree has a subtree: one level of recursion is not enough. *)
Example crawl_cut_short :
  outcome (load_data Scenario.with_markdown Scenario.extension 1
             (Scenario.reader true) (Some "commit_1") None)
  = OutOfFuel.
Proof. evaluate. Qed.

(** C1, the counterexample: with the parser of [md] raising, the blob
    [d.md] still contributes a Document, the plain text of the file. *)
Lemma parser_failure_is_not_terminal : ¬ parser_failure_is_terminal.
Proof.
  intros Hclaim.
  assert (Hnone : outcome (blob_documents Scenario.with_broken Scenario.extension
                    (Scenario.reader true) (Scenario.d_md, "d.md")) = Return []).
  { apply (Hclaim Scenario.with_broken Scenario.extension
      (Scenario.reader true) Scenario.d_md "d.md"
      (Scenario.blob "base64" "IyBUaXRsZQ==" "sha_d")
      (utf8.encode "# Title") Scenario.broken (OtherException "ParserError"));
      evaluate. }
  vm_compute in Hnone. discriminate Hnone.
Qed.

(** Witnesses: the theorems above at the scenario. *)

Lemma parser_failure_falls_back_witness :
  outcome (blob_documents Scenario.with_broken Scenario.extension
             (Scenario.reader true) (Scenario.d_md, "d.md"))
  = Return [Scenario.title_text].
Proof.
  pose proof (parser_failure_falls_back Scenario.with_broken Scenario.extension
    (Scenario.reader true) Scenario.d_md "d.md"
    (Scenario.blob "base64" "IyBUaXRsZQ==" "sha_d")
    (utf8.encode "# Title") Scenario.broken (OtherException "ParserError")) as H.
  destruct H as [H _]; [evaluate..|].
  vm_compute in H. vm_compute. exact H.
Defined.

Lemma walk_lists_every_blob_once_witness :
  outcome (_recurse_tree 2 (Scenario.reader true) "sha_root" "" 0)
  = Return [(Scenario.a_txt, "a.txt"); (Scenario.c_bin, "b/c.bin");
            (Scenario.d_md, "d.md")]
  ∧ NoDup ["a.txt"; "b/c.bin"; "d.md"].
Proof.
  destruct (walk_lists_every_blob_once (Scenario.reader true) "sha_root"
              Scenario.nodes scenario_served)
    as (blobs_and_full_paths & Hrun & Hlen & Heq & Hnodup).
  subst blobs_and_full_paths. split.
  - apply (Hrun 2). vm_compute. lia.
  - apply Hnodup. evaluate.
Defined.

Lemma parsed_blob_yields_one_document_witness :
  outcome (blob_documents Scenario.with_markdown Scenario.extension
             (Scenario.reader true) (Scenario.d_md, "d.md"))
  = Return [Scenario.title_parsed].
Proof.
  pose proof (parsed_blob_yields_one_document Scenario.with_markdown
    Scenario.extension (Scenario.reader true) Scenario.d_md "d.md"
    (Scenario.blob "base64" "IyBUaXRsZQ==" "sha_d")
    (utf8.encode "# Title") Scenario.markdown ["Title"]) as H.
  destruct H as [H _]; [evaluate..|].
  vm_compute in H. vm_compute. exact H.
Defined.

Lemma text_blob_round_trip_witness :
  outcome (blob_documents Scenario.with_markdown Scenario.extension
             (Scenario.reader true) (Scenario.a_txt, "a.txt"))
  = Return [Scenario.hello_text].
Proof.
  pose proof (text_blob_round_trip Scenario.with_markdown
    Scenario.extension (Scenario.reader true) Scenario.a_txt "a.txt"
    (Scenario.blob "base64" "aGVsbG8=" "sha_a") "hello") as H.
  destruct H as [H _]; [evaluate..|].
  vm_compute in H. vm_compute. exact H.
Defined.


Lemma load_data_argument_check_witness :
  head (calls (load_data Scenario.with_markdown Scenario.extension 2
                 (Scenario.reader true) (Some "commit_1") None))
  = Some (get_commit_call "jerryjliu" "gpt_index" "commit_1").
Proof.
  pose proof (load_data_argument_check Scenario.with_markdown
    Scenario.extension 2 (Scenario.reader true) (Some "commit_1") None) as H.
  cbv zeta in H. destruct H as (_ & H & _).
  destruct (H "commit_1" eq_refl eq_refl) as [_ Hhead]. exact Hhead.
Defined.

Lemma init_requires_credential_witness :
  outcome (__init__ {[ "GITHUB_TOKEN" := "secret" ]} Scenario.client
             "jerryjliu" "gpt_index" true false None)
  = Return {| _owner := "jerryjliu"; _repo := "gpt_index";
              _use_parser := true; _verbose := false;
              _client := Scenario.client "secret" |}.
Proof.
  pose proof (init_requires_credential {[ "GITHUB_TOKEN" := "secret" ]}
    Scenario.client "jerryjliu" "gpt_index" true false None) as H.
  cbv zeta in H. destruct H as (_ & _ & H).
  apply H. right. split; [reflexivity | evaluate].
Defined.

Lemma encoding_assertion_witness :
  outcome (blob_documents Scenario.with_markdown Scenario.extension
             (Scenario.reader true) (Scenario.f_txt, "f.txt"))
  = Raise (AssertionError "blob encoding utf-8 not supported").
Proof.
  pose proof (encoding_assertion Scenario.with_markdown
    Scenario.extension (Scenario.reader true) Scenario.f_txt "f.txt"
    (Scenario.blob "utf-8" "hello" "sha_f")) as H.
  destruct H as [_ H]; [evaluate|].
  destruct H as [H _]; [discriminate|].
  vm_compute in H. vm_compute. exact H.
Defined.

Lemma documents_from_distinct_blobs_witness :
  ∃ tree_sha blobs_and_paths sources,
    resolves (Scenario.reader false) (Some "commit_1") None tree_sha
    ∧ outcome (_recurse_tree 2 (Scenario.reader false) tree_sha "" 0)
      = Return blobs_and_paths
    ∧ length [Scenario.hello_text; Scenario.title_text] ≤ length blobs_and_paths
    ∧ sources `sublist_of` blobs_and_paths
    ∧ Forall2 (λ bp document,
                 outcome (blob_documents Scenario.with_markdown
                            Scenario.extension (Scenario.reader false) bp)
                 = Return [document])
        sources [Scenario.hello_text; Scenario.title_text].
Proof.
  apply (documents_from_distinct_blobs Scenario.with_markdown
    Scenario.extension (Scenario.reader false) 2 (Some "commit_1") None).
  evaluate.
Defined.

Lemma documents_in_walk_order_witness :
  outcome (_recurse_tree 2 (Scenario.reader true) "sha_root" "" 0)
    = Return (pathed <$> (Scenario.nodes ≫= blob_entries []))
  ∧ (outcome (load_data Scenario.with_markdown Scenario.extension 2
                (Scenario.reader true) None (Some "main"))
       = Return [Scenario.hello_text; Scenario.title_parsed]
     ↔ ∃ contributions,
         Forall2 (λ bp new,
                    outcome (blob_documents Scenario.with_markdown
                               Scenario.extension (Scenario.reader true) bp)
                    = Return new)
           (pathed <$> (Scenario.nodes ≫= blob_entries [])) contributions
         ∧ [Scenario.hello_text; Scenario.title_parsed] = concat contributions).
Proof.
  apply (documents_in_walk_order Scenario.with_markdown Scenario.extension
    (Scenario.reader true) 2 None (Some "main") "sha_root" Scenario.nodes).
  - right. eexists "main", _. repeat split; evaluate.
  - apply scenario_served.
  - vm_compute. lia.
Defined.

(** ** Further properties of the reader *)

(** *** The requests for blobs, and what ends a crawl *)

Lemma calls_bind_mret {A B} (m : run A) (f : A → B) :
  calls (m ≫= λ a, mret (f a)) = calls m.
Proof.
  unfold mbind, run_mbind, run_bind.
  destruct (outcome m); cbn; [apply app_nil_r | done..].
Qed.

Lemma outcome_bind_mret {A B} (m : run A) (f : A → B) a :
  outcome m = Return a → outcome (m ≫= λ a, mret (f a)) = Return (f a).
Proof. intros H. unfold mbind, run_mbind, run_bind. by rewrite H. Qed.

Lemma for_each_ext {A B} (body1 body2 : B → A → run B) (l : list A) (acc : B) :
  (∀ acc x, x ∈ l → body1 acc x = body2 acc x) →
  for_each body1 l acc = for_each body2 l acc.
Proof.
  revert acc. induction l as [|x l IH]; intros acc Hbody; [done|].
  cbn [for_each]. rewrite (Hbody acc x) by left.
  apply run_bind_ext. intros acc'. apply IH.
  intros acc'' y Hy. apply Hbody. by right.
Qed.

Section Requests.

Variable DEFAULT_FILE_EXTRACTOR : gmap string BaseParser.
Variable get_file_extension : string → string.
Variable self : GithubRepositoryReader.

Local Abbreviation generate :=
  (_generate_documents DEFAULT_FILE_EXTRACTOR get_file_extension self).
Local Abbreviation blob_documents :=
  (blob_documents DEFAULT_FILE_EXTRACTOR get_file_extension self).
Local Abbreviation requests := (blob_requests (_owner self) (_repo self)).

Lemma blob_documents_calls bp :
  calls (blob_documents bp)
  = [get_blob_call (_owner self) (_repo self) (GitTreeResponseModel.sha bp.1)].
Proof.
  destruct bp as [blob_object full_path].
  unfold blob_documents, _generate_documents_body, _parse_supported_file,
    get_blob.
  destruct (blob_response _ _ _ _) as [e|blob_data]; [done|]. cbn.
  repeat (case_match; cbn; try done).
Qed.

Lemma generate_calls_cons bp rest :
  calls (generate (bp :: rest))
  = get_blob_call (_owner self) (_repo self) (GitTreeResponseModel.sha bp.1)
    :: match outcome (blob_documents bp) with
       | Return _ => calls (generate rest)
       | _ => []
       end.
Proof.
  rewrite generate_cons. unfold mbind at 1, run_mbind at 1, run_bind at 1.
  rewrite blob_documents_calls.
  destruct (outcome (blob_documents bp)) as [new| |]; cbn; [|done..].
  f_equal. apply calls_bind_mret.
Qed.

Lemma generate_outcome_cons bp rest :
  outcome (generate (bp :: rest))
  = match outcome (blob_documents bp) with
    | Return new =>
        match outcome (generate rest) with
        | Return documents => Return (new ++ documents)
        | Raise e => Raise e
        | OutOfFuel => OutOfFuel
        end
    | Raise e => Raise e
    | OutOfFuel => OutOfFuel
    end.
Proof.
  rewrite generate_cons. unfold mbind, run_mbind, run_bind.
  destruct (outcome (blob_documents bp)) as [new| |]; cbn; [|done..].
  by destruct (outcome (generate rest)).
Qed.

Lemma generate_requests (blobs_and_paths : list (GitTreeObject * string)) :
  calls (generate blobs_and_paths) `prefix_of` requests blobs_and_paths
  ∧ (∀ documents,
       outcome (generate blobs_and_paths) = Return documents →
       calls (generate blobs_and_paths) = requests blobs_and_paths).
Proof.
  induction blobs_and_paths as [|bp rest [IHprefix IHall]].
  - split; [by exists []|done].
  - rewrite generate_calls_cons, generate_outcome_cons.
    unfold blob_requests. rewrite fmap_cons.
    destruct (outcome (blob_documents bp)) as [new| |].
    + split; [by apply prefix_cons|].
      intros documents Hret.
      destruct (outcome (generate rest)) as [ds| |]; [|done..].
      f_equal. by apply (IHall ds).
    + split; [|done]. apply prefix_cons, prefix_nil.
    + split; [|done]. apply prefix_cons, prefix_nil.
Qed.

(** An iteration that raises ends the crawl: the crawl raises the same,
    having asked for the blobs up to that one. *)
Lemma generate_raise pre bp rest documents e :
  outcome (generate pre) = Return documents →
  outcome (blob_documents bp) = Raise e →
  outcome (generate (pre ++ bp :: rest)) = Raise e
  ∧ calls (generate (pre ++ bp :: rest)) = requests (pre ++ [bp]).
Proof.
  intros Hpre Hone. rewrite generate_app.
  destruct (outcome_bind_return (generate pre)
    (λ d1, generate (bp :: rest) ≫= λ d2, mret (d1 ++ d2)) documents Hpre)
    as [-> ->].
  assert (Hcons : outcome (generate (bp :: rest)) = Raise e)
    by (by rewrite generate_outcome_cons, Hone).
  destruct (outcome_bind_raise (generate (bp :: rest))
    (λ d2, mret (documents ++ d2)) e Hcons) as [-> ->].
  split; [done|].
  rewrite generate_calls_cons, Hone.
  destruct (generate_requests pre) as [_ Hall].
  rewrite (Hall documents Hpre).
  unfold blob_requests. by rewrite fmap_app.
Qed.

(** X1. [_generate_documents] asks the client for each blob of its list
    once, in the order of the list, and for nothing else: the requests of
    a crawl that returns are the blob requests of the whole list, skipped
    blobs included, and those of a crawl that raises are the first of
    them. *)
Theorem one_request_per_blob (blobs_and_paths : list (GitTreeObject * string)) :
  calls (generate blobs_and_paths) `prefix_of` requests blobs_and_paths
  ∧ (∀ documents,
       outcome (generate blobs_and_paths) = Return documents →
       calls (generate blobs_and_paths) = requests blobs_and_paths).
Proof. apply generate_requests. Qed.

(** X2. An error of the client on a blob is not caught: the crawl raises
    it unchanged, whatever documents the blobs before it gave, and asks
    for no blob after that one. *)
Theorem blob_request_error_propagates
    (blob_object : GitTreeObject) (full_path : string) (e : exn)
    (pre rest : list (GitTreeObject * string)) (documents : list Document) :
  blob_response (_client self) (_owner self) (_repo self)
    (GitTreeResponseModel.sha blob_object) = inl e →
  outcome (generate pre) = Return documents →
  outcome (generate (pre ++ (blob_object, full_path) :: rest)) = Raise e
  ∧ calls (generate (pre ++ (blob_object, full_path) :: rest))
    = requests (pre ++ [(blob_object, full_path)]).
Proof.
  intros Hblob Hpre. apply (generate_raise _ _ _ documents); [done|].
  unfold blob_documents, _generate_documents_body, get_blob.
  by rewrite Hblob.
Qed.

(** X3. The initialisation of a parser is not guarded: when the parser
    registered for the extension of a decodable blob raises in
    [init_parser], the crawl raises the same and returns no document,
    where a failure of [parse_file] would only have sent the blob to the
    plain-text fallback. *)
Theorem parser_initialisation_error_propagates
    (blob_object : GitTreeObject) (full_path : string)
    (blob_data : GitBlobResponseModel.t) (decoded_bytes : list byte)
    (parser : BaseParser) (e : exn)
    (pre rest : list (GitTreeObject * string)) (documents : list Document) :
  blob_response (_client self) (_owner self) (_repo self)
    (GitTreeResponseModel.sha blob_object) = inr blob_data →
  GitBlobResponseModel.encoding blob_data = "base64" →
  base64.b64decode (GitBlobResponseModel.content blob_data)
    = Return decoded_bytes →
  _use_parser self = true →
  DEFAULT_FILE_EXTRACTOR !! get_file_extension full_path = Some parser →
  init_parser parser = inl e →
  outcome (generate pre) = Return documents →
  outcome (generate (pre ++ (blob_object, full_path) :: rest)) = Raise e
  ∧ calls (generate (pre ++ (blob_object, full_path) :: rest))
    = requests (pre ++ [(blob_object, full_path)]).
Proof.
  intros Hblob Henc Hdec Huse Hreg Hinit Hpre.
  apply (generate_raise _ _ _ documents); [done|].
  unfold blob_documents, _generate_documents_body, _parse_supported_file,
    get_blob.
  rewrite Hblob. cbn. rewrite Henc. cbn. rewrite Hdec, Huse. cbn.
  rewrite Hreg, Hinit. done.
Qed.

End Requests.

(** X4. With the parsers switched off the registry of parsers and
    [get_file_extension] are never consulted: the crawl, requests and
    documents, is the same under any two of them. *)
Theorem parsers_off_ignores_registry
    (registry registry' : gmap string BaseParser)
    (extension extension' : string → string)
    (self : GithubRepositoryReader)
    (blobs_and_paths : list (GitTreeObject * string)) :
  _use_parser self = false →
  _generate_documents registry extension self blobs_and_paths
  = _generate_documents registry' extension' self blobs_and_paths.
Proof.
  intros Huse. unfold _generate_documents. apply for_each_ext.
  intros acc [blob_object full_path] _.
  unfold _generate_documents_body. by rewrite Huse.
Qed.

(** *** The shapes of the documents *)

Section Shapes.

Variable DEFAULT_FILE_EXTRACTOR : gmap string BaseParser.
Variable get_file_extension : string → string.
Variable self : GithubRepositoryReader.

Local Abbreviation generate :=
  (_generate_documents DEFAULT_FILE_EXTRACTOR get_file_extension self).
Local Abbreviation blob_documents :=
  (blob_documents DEFAULT_FILE_EXTRACTOR get_file_extension self).

Lemma blob_document_shape blob_object full_path document :
  outcome (blob_documents (blob_object, full_path)) = Return [document] →
  (_use_parser self = true ∧ parsed_shape full_path document)
  ∨ text_shape full_path document.
Proof.
  unfold blob_documents, _generate_documents_body, _parse_supported_file,
    get_blob, parsed_shape, text_shape.
  destruct (blob_response _ _ _ _) as [e|blob_data]; [done|]. cbn.
  repeat (case_match; cbn; try done); intros [= <-]; simplify_eq/=;
    first [ by right | left; split; [done|]; split; [by eexists | done] ].
Qed.

(** X5. Every Document of a crawl that returns has one of two shapes,
    fixed by the path of the blob it comes from: made by a parser (only
    with the parsers switched on), it has a [doc_id] and the metadata
    [file_path] and [file_name], both the full path; made of the plain
    text, it has no [doc_id] and the metadata [full_path], [file_name]
    (the basename) and [file_extension]. *)
Theorem documents_have_two_shapes
    (blobs_and_paths : list (GitTreeObject * string))
    (documents : list Document) :
  outcome (generate blobs_and_paths) = Return documents →
  ∃ sources,
    sources `sublist_of` blobs_and_paths
    ∧ Forall2 (λ bp document,
                 (_use_parser self = true ∧ parsed_shape bp.2 document)
                 ∨ text_shape bp.2 document)
        sources documents.
Proof.
  intros (sources & Hsub & Hsrc)%generate_sources.
  exists sources. split; [done|].
  eapply Forall2_impl; [exact Hsrc|].
  intros [blob_object full_path] document Hone.
  by apply (blob_document_shape blob_object).
Qed.

End Shapes.

(** *** The requests of the walk, and what it returns from any client *)

Lemma outcome_bind_inv {A B} (m : run A) (f : A → run B) b :
  outcome (m ≫= f) = Return b →
  ∃ a, outcome m = Return a ∧ outcome (f a) = Return b.
Proof.
  unfold mbind, run_mbind, run_bind.
  destruct (outcome m) as [a| |]; [|done..]. eauto.
Qed.

Lemma run_bind_return {A B} cs (a : A) (f : A → run B) :
  (Run cs (Return a) ≫= f) = Run (cs ++ calls (f a)) (outcome (f a)).
Proof. reflexivity. Qed.

Section Walk_requests.

Variable self : GithubRepositoryReader.

Local Abbreviation served_by_client :=
  (served (_client self) (_owner self) (_repo self)).
Local Abbreviation node_served_by_client :=
  (node_served (_client self) (_owner self) (_repo self)).
Local Abbreviation walk_body := (walk_body self).
Local Abbreviation requests_below :=
  (subtree_requests (_owner self) (_repo self)).

Local Abbreviation walks_served := (walks_served self).

Lemma walk_loop_run fuel segments current_depth nodes :
  walks_served fuel →
  Forall node_served_by_client nodes →
  heights nodes < S fuel →
  ∀ acc,
    for_each (walk_body fuel (full_path segments) current_depth)
      (entry_of <$> nodes) acc
    = Run (nodes ≫= requests_below)
          (Return (acc ++ (pathed <$> (nodes ≫= blob_entries segments)))).
Proof.
  intros IH Hnodes. induction Hnodes as [|n nodes Hn Hnodes IHnodes];
    intros Hfuel acc.
  - cbn. by rewrite app_nil_r.
  - assert (Hh : height n ≤ fuel ∧ heights nodes < S fuel).
    { pose proof (height_le_heights n (n :: nodes) ltac:(left)).
      unfold heights in *. cbn in *. lia. }
    destruct Hh as [Hh Hhs]. specialize (IHnodes Hhs).
    rewrite fmap_cons. cbn [for_each].
    assert (Hstep : walk_body fuel (full_path segments) current_depth acc
                      (entry_of n)
                    = Run (requests_below n)
                        (Return (acc ++ (pathed <$> blob_entries segments n)))).
    { unfold walk_body.
      destruct Hn as [entry Hty|entry children Hty Hch]; cbn.
      - rewrite bool_decide_eq_false_2 by done.
        case_bool_decide; cbn; [|by rewrite app_nil_r].
        unfold pathed. cbn. by rewrite full_path_snoc.
      - rewrite bool_decide_eq_true_2 by done.
        rewrite <- full_path_snoc.
        rewrite (IH _ children) by (done || (cbn in Hh; unfold heights; lia)).
        rewrite run_bind_return. cbn. unfold tree_requests.
        by rewrite app_nil_r. }
    rewrite Hstep, run_bind_return, IHnodes. cbn [calls outcome].
    rewrite !bind_cons, fmap_app, app_assoc. done.
Qed.

Lemma walk_served_run fuel : walks_served fuel.
Proof.
  induction fuel as [|fuel IH];
    intros tree_sha nodes segments current_depth Hserved Hfuel; [lia|].
  destruct Hserved as [tree_sha nodes Htree Hnodes].
  rewrite _recurse_tree_S. unfold get_tree. rewrite Htree. cbn [lift].
  rewrite run_bind_return. cbn [GitTreeResponseModel.tree].
  by rewrite (walk_loop_run fuel segments current_depth nodes IH Hnodes Hfuel []).
Qed.

Lemma length_subtree_requests n :
  length (requests_below n) = count_subtrees n.
Proof.
  induction n as [entry|entry children IH] using Node_forall_ind; [done|].
  cbn [subtree_requests count_subtrees length]. f_equal.
  induction IH as [|c children Hc _ IHchildren]; [done|].
  rewrite bind_cons, length_app, Hc, IHchildren. done.
Qed.

(** X6. The walk of a served tree asks the client for the root tree and
    then for each subtree once, when it meets its entry: the requests
    are those for the trees in depth-first order, one more than the tree
    has subtrees, and none is for a blob. *)
Theorem one_request_per_tree (fuel : nat) (tree_sha : string)
    (nodes : list Node) :
  served_by_client tree_sha nodes →
  heights nodes < fuel →
  calls (_recurse_tree fuel self tree_sha "" 0)
    = tree_requests (_owner self) (_repo self) tree_sha nodes
  ∧ length (calls (_recurse_tree fuel self tree_sha "" 0))
    = S (foldr plus 0 (count_subtrees <$> nodes)).
Proof.
  intros Hserved Hfuel.
  pose proof (walk_served_run fuel tree_sha nodes [] 0 Hserved Hfuel) as Hrun.
  change (full_path []) with "" in Hrun. rewrite Hrun. cbn [calls].
  split; [done|]. unfold tree_requests. cbn [length]. f_equal.
  clear. induction nodes as [|n nodes IH]; [done|].
  rewrite bind_cons, length_app, length_subtree_requests, IH. done.
Qed.

Lemma full_path_singleton (current_path : string) :
  full_path [current_path] = current_path.
Proof.
  unfold full_path, os_path.join. cbn [foldl].
  by destruct (startswith current_path "/").
Qed.

(** X8. An error below a subtree is not caught and no partial list is
    returned: when the walk of the subtree at an entry raises, the walk
    of the enclosing tree raises the same, whatever blobs the entries
    before it gave. *)
Theorem subtree_error_propagates
    (fuel : nat) (tree_sha current_path : string) (current_depth : nat)
    (before : list Node) (after : list GitTreeObject)
    (subtree : GitTreeObject) (e : exn) :
  tree_response (_client self) (_owner self) (_repo self) tree_sha
    = inr {| GitTreeResponseModel.tree :=
               (entry_of <$> before) ++ subtree :: after |} →
  Forall node_served_by_client before →
  heights before < S fuel →
  GitTreeResponseModel.type subtree = "tree" →
  outcome (_recurse_tree fuel self (GitTreeResponseModel.sha subtree)
             (os_path.join current_path (GitTreeResponseModel.path subtree))
             (S current_depth)) = Raise e →
  outcome (_recurse_tree (S fuel) self tree_sha current_path current_depth)
    = Raise e.
Proof.
  intros Htree Hbefore Hfuel Hty Hsub.
  rewrite _recurse_tree_S. unfold get_tree. rewrite Htree. cbn [lift].
  rewrite run_bind_return. cbn [outcome GitTreeResponseModel.tree].
  rewrite for_each_app.
  rewrite <- (full_path_singleton current_path).
  rewrite (walk_loop_run fuel [current_path] current_depth before
             (walk_served_run fuel) Hbefore Hfuel []).
  rewrite run_bind_return. cbn [outcome for_each].
  apply outcome_bind_raise. unfold walk_body.
  rewrite bool_decide_eq_true_2 by done.
  rewrite full_path_singleton. by apply outcome_bind_raise.
Qed.

End Walk_requests.

Section Walk_any_client.

Variable self : GithubRepositoryReader.

Local Abbreviation walk_body := (walk_body self).

Lemma walk_loop_walked fuel current_path current_depth :
  (∀ tree_sha current_path current_depth blobs,
     outcome (_recurse_tree fuel self tree_sha current_path current_depth)
       = Return blobs → Forall walked blobs) →
  ∀ entries acc blobs,
    Forall walked acc →
    outcome (for_each (walk_body fuel current_path current_depth) entries acc)
      = Return blobs →
    Forall walked blobs.
Proof.
  intros IH entries.
  induction entries as [|entry entries IHentries]; intros acc blobs Hacc.
  - cbn. by intros [= <-].
  - cbn [for_each]. intros (acc' & Hstep & Hrest)%outcome_bind_inv.
    apply (IHentries acc'); [|done].
    revert Hstep. unfold walk_body.
    case_bool_decide as Htree; [|case_bool_decide as Hblob].
    + intros (sub & Hsub & [= <-])%outcome_bind_inv.
      apply Forall_app. split; [done|]. by eapply IH.
    + intros [= <-]. apply Forall_app. split; [done|].
      apply Forall_singleton. split; [done|]. by exists current_path.
    + by intros [= <-].
Qed.

Lemma walk_walked fuel : ∀ tree_sha current_path current_depth blobs,
  outcome (_recurse_tree fuel self tree_sha current_path current_depth)
    = Return blobs →
  Forall walked blobs.
Proof.
  induction fuel as [|fuel IH]; intros tree_sha current_path current_depth blobs;
    [done|].
  rewrite _recurse_tree_S.
  intros (tree_data & _ & Hloop)%outcome_bind_inv.
  by eapply (walk_loop_walked fuel current_path current_depth IH).
Qed.

(** X7. Whatever the client answers, the walk returns blobs only: every
    pair of a walk that returns holds an entry of type "blob", with a
    path joined by [os.path.join] from the path of its tree and the
    entry's own path; entries of any other type (a submodule) and the
    entries of the trees themselves are never returned. *)
Theorem walk_returns_only_blobs
    (fuel : nat) (tree_sha current_path : string) (current_depth : nat)
    (blobs_and_full_paths : list (GitTreeObject * string)) :
  outcome (_recurse_tree fuel self tree_sha current_path current_depth)
    = Return blobs_and_full_paths →
  Forall walked blobs_and_full_paths.
Proof. apply walk_walked. Qed.

End Walk_any_client.

(** *** The name and the extension of a path *)

Lemma slice_to_from i : ∀ p, slice_to i p +:+ slice_from i p = p.
Proof.
  induction i as [|i IH]; intros [|c p]; try done.
  cbn [slice_to slice_from]. rewrite append_cons. by rewrite IH.
Qed.

Lemma rfind_bounds c p : (-1 ≤ rfind c p < Z.of_nat (String.length p))%Z.
Proof.
  induction p as [|x p IH]; [done|]. cbn [rfind String.length].
  destruct (0 <=? rfind c p)%Z eqn:Hr; [lia|].
  case_bool_decide; lia.
Qed.

(** From the last [c] on, a string starts with [c] and holds no other. *)
Lemma slice_from_rfind c p :
  (0 ≤ rfind c p)%Z →
  ∃ r, slice_from (Z.to_nat (rfind c p)) p = String c r
       ∧ char_free c r = true.
Proof.
  induction p as [|x p IH]; [done|]. cbn [rfind].
  destruct (0 <=? rfind c p)%Z eqn:Hr.
  - intros _. apply Z.leb_le in Hr. destruct (IH Hr) as (r & Heq & Hfree).
    exists r. split; [|done].
    replace (Z.to_nat (rfind c p + 1)) with (S (Z.to_nat (rfind c p))) by lia.
    done.
  - apply Z.leb_gt in Hr. case_bool_decide as Hx; [|done]. intros _.
    subst x. exists p. split; [done|].
    clear IH. pose proof (rfind_bounds c p) as Hb.
    assert (Hnone : rfind c p = (-1)%Z) by lia. clear Hr Hb.
    induction p as [|y p IH]; [done|]. cbn [rfind char_free] in *.
    destruct (0 <=? rfind c p)%Z eqn:Hr.
    + apply Z.leb_le in Hr. lia.
    + case_bool_decide; [done|]. cbn. apply IH.
      pose proof (rfind_bounds c p). apply Z.leb_gt in Hr. lia.
Qed.

(** Past the last [c], a string holds no [c]. *)
Lemma char_free_after c : ∀ p i,
  (rfind c p < Z.of_nat i)%Z → char_free c (slice_from i p) = true.
Proof.
  induction p as [|x p IH]; intros [|i] Hi; try done.
  - pose proof (rfind_bounds c (String x p)). cbn in Hi.
    cbn [rfind] in *. destruct (0 <=? rfind c p)%Z eqn:Hr.
    + apply Z.leb_le in Hr. lia.
    + case_bool_decide; [lia|]. cbn [slice_from char_free].
      rewrite bool_decide_eq_false_2 by done. cbn.
      apply (IH 0). apply Z.leb_gt in Hr. lia.
  - cbn [slice_from]. apply IH. cbn [rfind] in Hi.
    destruct (0 <=? rfind c p)%Z eqn:Hr; [lia|].
    apply Z.leb_gt in Hr. lia.
Qed.

Lemma char_free_slash s : char_free "/" s = slash_free s.
Proof. induction s as [|c s IH]; [done|]. cbn. by rewrite IH. Qed.

Lemma splitext_loop_cases n p filenameIndex dotIndex :
  os_path.splitext_loop n p filenameIndex dotIndex = (p, "")
  ∨ os_path.splitext_loop n p filenameIndex dotIndex
    = (slice_to (Z.to_nat dotIndex) p, slice_from (Z.to_nat dotIndex) p).
Proof.
  revert filenameIndex. induction n as [|n IH]; intros filenameIndex;
    cbn [os_path.splitext_loop]; [by left|].
  destruct (filenameIndex <? dotIndex)%Z; [|by left].
  case_bool_decide; [by right | apply IH].
Qed.

Lemma path_cuts (full_path : string) :
  (∃ directory,
     full_path = directory +:+ os_path.basename full_path
     ∧ (directory = "" ∨ endswith_char directory "/" = true)
     ∧ slash_free (os_path.basename full_path) = true)
  ∧ (os_path.splitext full_path).1 +:+ (os_path.splitext full_path).2
    = full_path
  ∧ ((os_path.splitext full_path).2 = ""
     ∨ ∃ r, (os_path.splitext full_path).2 = String "." r
            ∧ char_free "." r = true ∧ slash_free r = true).
Proof.
  split; [|split].
  - unfold os_path.basename.
    pose proof (rfind_bounds "/" full_path) as Hb.
    exists (slice_to (Z.to_nat (rfind "/" full_path + 1)) full_path).
    split; [by rewrite slice_to_from|]. split.
    + destruct (decide (rfind "/" full_path = (-1)%Z)) as [->|Hne];
        [by left|]. right.
      destruct (slice_from_rfind "/" full_path ltac:(lia)) as (r & Heq & _).
      replace (Z.to_nat (rfind "/" full_path + 1))
        with (S (Z.to_nat (rfind "/" full_path))) by lia.
      revert Heq. generalize (Z.to_nat (rfind "/" full_path)). clear.
      intros i. revert full_path.
      induction i as [|i IH]; intros [|c p]; try done.
      * cbn. intros [= -> _]. done.
      * cbn [slice_from slice_to]. intros Heq. specialize (IH p Heq).
        destruct p as [|d p]; [done|]. exact IH.
    + rewrite <- char_free_slash. apply char_free_after. lia.
  - unfold os_path.splitext.
    destruct (rfind "/" full_path <? rfind "." full_path)%Z; [|cbn; apply append_empty_r].
    destruct (splitext_loop_cases (String.length full_path) full_path
                (rfind "/" full_path + 1) (rfind "." full_path)) as [->| ->];
      cbn; [apply append_empty_r | apply slice_to_from].
  - unfold os_path.splitext.
    destruct (rfind "/" full_path <? rfind "." full_path)%Z eqn:Hlt;
      [|by left].
    apply Z.ltb_lt in Hlt. pose proof (rfind_bounds "/" full_path) as Hb.
    destruct (splitext_loop_cases (String.length full_path) full_path
                (rfind "/" full_path + 1) (rfind "." full_path)) as [->| ->];
      [by left|]. right. cbn.
    destruct (slice_from_rfind "." full_path ltac:(lia)) as (r & Heq & Hfree).
    exists r. split; [done|]. split; [done|].
    assert (Hall : char_free "/"
              (slice_from (Z.to_nat (rfind "." full_path)) full_path) = true)
      by (apply char_free_after; lia).
    rewrite Heq in Hall. cbn [char_free] in Hall.
    apply andb_prop in Hall as [_ Hall]. by rewrite <- char_free_slash.
Qed.

(** *** The paths of a well-formed tree *)

Section Joined_paths.

Lemma str_join_snoc sep (l : list string) (p : string) :
  str_join sep (l ++ [p])
  = match l with
    | [] => p
    | _ => str_join sep l +:+ sep +:+ p
    end.
Proof.
  induction l as [|x l IH]; [done|].
  destruct l as [|y l]; [done|].
  change ((x :: y :: l) ++ [p]) with (x :: ((y :: l) ++ [p])).
  change (str_join sep (x :: (y :: l) ++ [p]))
    with (x +:+ sep +:+ str_join sep ((y :: l) ++ [p])).
  rewrite IH.
  change (str_join sep (x :: y :: l)) with (x +:+ sep +:+ str_join sep (y :: l)).
  by rewrite !append_assoc.
Qed.

Lemma full_path_segments (segments : list string) :
  Forall (λ p, is_segment p = true) segments →
  clean (full_path segments)
  ∧ full_path segments = str_join "/" segments
  ∧ (segments ≠ [] → full_path segments ≠ "").
Proof.
  induction segments as [|p segments IH] using rev_ind; intros Hseg.
  - done.
  - apply Forall_app in Hseg as [Hsegs Hp].
    rewrite Forall_singleton in Hp.
    destruct (IH Hsegs) as (Hclean & Heq & Hne).
    rewrite full_path_snoc. rewrite join_segment; [|exact Hclean|exact Hp].
    split; [by apply clean_join|]. split; [|intros _; by apply join_nonempty].
    rewrite str_join_snoc. unfold dir_prefix.
    destruct segments as [|q segments]; [done|].
    rewrite bool_decide_eq_false_2 by (by apply Hne).
    by rewrite Heq, append_assoc.
Qed.

Lemma blob_entries_segments n : ∀ segments,
  well_formed n = true →
  is_segment (name_of n) = true →
  Forall (λ p, is_segment p = true) segments →
  Forall (λ e, Forall (λ p, is_segment p = true) e.2
               ∧ ∃ enclosing, e.2 = enclosing ++ [GitTreeResponseModel.path e.1])
    (blob_entries segments n).
Proof.
  induction n as [entry|entry children IH] using Node_forall_ind;
    intros segments Hwf Hname Hsegs; cbn [blob_entries].
  - case_bool_decide; [|constructor].
    apply Forall_singleton. split; [|by exists segments].
    apply Forall_app. split; [done|]. by apply Forall_singleton.
  - cbn [well_formed] in Hwf. apply andb_prop in Hwf as [Hok Hwf].
    apply Forall_forall. intros e (c & He & Hc)%list_elem_of_bind.
    rewrite Forall_forall in IH.
    assert (Hall : Forall (λ e, Forall (λ p, is_segment p = true) e.2
        ∧ ∃ enclosing, e.2 = enclosing ++ [GitTreeResponseModel.path e.1])
      (blob_entries (segments ++ [GitTreeResponseModel.path entry]) c)).
    { apply (IH c Hc).
      - rewrite forallb_forall in Hwf. by apply Hwf, list_elem_of_In.
      - by eapply names_ok_segment.
      - apply Forall_app. split; [done|]. by apply Forall_singleton. }
    rewrite Forall_forall in Hall. by apply Hall.
Qed.

Lemma tree_entries_segments nodes :
  well_formed_tree nodes = true →
  Forall (λ e, Forall (λ p, is_segment p = true) e.2
               ∧ ∃ enclosing, e.2 = enclosing ++ [GitTreeResponseModel.path e.1])
    (nodes ≫= blob_entries []).
Proof.
  intros [Hok Hwf]%andb_prop.
  apply Forall_forall. intros e (n & He & Hn)%list_elem_of_bind.
  assert (Hall : Forall (λ e, Forall (λ p, is_segment p = true) e.2
      ∧ ∃ enclosing, e.2 = enclosing ++ [GitTreeResponseModel.path e.1])
    (blob_entries [] n)).
  { apply blob_entries_segments.
    - rewrite forallb_forall in Hwf. by apply Hwf, list_elem_of_In.
    - by eapply names_ok_segment.
    - constructor. }
  rewrite Forall_forall in Hall. by apply Hall.
Qed.

Lemma rfind_slash_free p : slash_free p = true → rfind "/" p = (-1)%Z.
Proof.
  induction p as [|c p IH]; [done|]. cbn [slash_free rfind].
  intros [Hc Hp]%andb_prop. rewrite (IH Hp).
  apply negb_true_iff in Hc. by rewrite Hc.
Qed.

Lemma rfind_last_slash x p :
  slash_free p = true →
  rfind "/" (x +:+ String "/" p) = Z.of_nat (String.length x).
Proof.
  intros Hp. induction x as [|c x IH].
  - rewrite append_nil. cbn [rfind String.length].
    rewrite (rfind_slash_free p Hp). by rewrite bool_decide_eq_true_2.
  - rewrite append_cons. cbn [rfind String.length]. rewrite IH.
    rewrite (proj2 (Z.leb_le 0 _)) by lia. lia.
Qed.

Lemma slice_from_append x p : slice_from (String.length x) (x +:+ p) = p.
Proof. induction x as [|c x IH]; [by destruct p|]. by rewrite append_cons. Qed.

Lemma basename_joined (segments : list string) (p : string) :
  slash_free p = true →
  os_path.basename (str_join "/" (segments ++ [p])) = p.
Proof.
  intros Hp. unfold os_path.basename. rewrite str_join_snoc.
  destruct segments as [|q segments].
  - by rewrite (rfind_slash_free p Hp).
  - set (x := str_join "/" (q :: segments)).
    change (x +:+ "/" +:+ p) with (x +:+ String "/" p).
    rewrite (rfind_last_slash x p Hp).
    replace (Z.to_nat (Z.of_nat (String.length x) + 1))
      with (String.length (x +:+ "/")).
    + rewrite <- (slice_from_append (x +:+ "/") p) at 2.
      by rewrite append_assoc.
    + clear. induction x as [|c x IH]; [done|].
      rewrite append_cons. cbn [String.length]. lia.
Qed.

Lemma length_append (x p : string) :
  String.length (x +:+ p) = String.length x + String.length p.
Proof.
  induction x as [|c x IH]; [done|]. rewrite append_cons. cbn. by rewrite IH.
Qed.

Lemma slice_from_shift x p i :
  slice_from (String.length x + i) (x +:+ p) = slice_from i p.
Proof. induction x as [|c x IH]; [done|]. by rewrite append_cons. Qed.

Lemma rfind_append_found c x p :
  (0 ≤ rfind c p)%Z →
  rfind c (x +:+ p) = (Z.of_nat (String.length x) + rfind c p)%Z.
Proof.
  intros Hp. induction x as [|y x IH]; [by rewrite append_nil|].
  rewrite append_cons. cbn [rfind String.length]. rewrite IH.
  rewrite (proj2 (Z.leb_le 0 _)) by lia. lia.
Qed.

Lemma rfind_append_missing c x p :
  rfind c p = (-1)%Z → rfind c (x +:+ p) = rfind c x.
Proof.
  intros Hp. induction x as [|y x IH]; [by rewrite append_nil|].
  rewrite append_cons. cbn [rfind]. by rewrite IH.
Qed.

(** The loop of [splitext] reads the file name only: on the path with a
    directory in front it finds what it finds on the name alone. *)
Lemma splitext_loop_shift x p d : ∀ k n m f,
  Z.to_nat (d - f) = k → k < n → k < m → (0 ≤ f)%Z →
  (os_path.splitext_loop n (x +:+ p)
     (Z.of_nat (String.length x) + f) (Z.of_nat (String.length x) + d)).2
  = (os_path.splitext_loop m p f d).2.
Proof.
  induction k as [|k IH]; intros [|n] [|m] f Hk Hn Hm Hf; try lia;
    cbn [os_path.splitext_loop].
  - rewrite (proj2 (Z.ltb_ge _ _)) by lia.
    by rewrite (proj2 (Z.ltb_ge f d)) by lia.
  - rewrite (proj2 (Z.ltb_lt _ _)) by lia.
    rewrite (proj2 (Z.ltb_lt f d)) by lia.
    replace (Z.to_nat (Z.of_nat (String.length x) + f))
      with (String.length x + Z.to_nat f) by lia.
    replace (Z.to_nat (Z.of_nat (String.length x) + d))
      with (String.length x + Z.to_nat d) by lia.
    rewrite !slice_from_shift.
    case_bool_decide; [done|].
    replace (Z.of_nat (String.length x) + f + 1)%Z
      with (Z.of_nat (String.length x) + (f + 1))%Z by lia.
    apply IH; lia.
Qed.

Lemma splitext_joined (segments : list string) (p : string) :
  slash_free p = true →
  (os_path.splitext (str_join "/" (segments ++ [p]))).2
  = (os_path.splitext p).2.
Proof.
  intros Hp. rewrite str_join_snoc.
  destruct segments as [|q segments]; [done|].
  set (x := str_join "/" (q :: segments)).
  rewrite <- append_assoc. set (y := x +:+ "/").
  assert (Hsep : rfind "/" (y +:+ p) = (Z.of_nat (String.length y) - 1)%Z).
  { unfold y. rewrite append_assoc.
    change ("/" +:+ p) with (String "/" p).
    rewrite (rfind_last_slash x p Hp), length_append. cbn. lia. }
  pose proof (rfind_bounds "." p) as Hb.
  unfold os_path.splitext. rewrite Hsep, (rfind_slash_free p Hp).
  destruct (decide (rfind "." p = (-1)%Z)) as [Hnone|Hsome].
  - rewrite (rfind_append_missing "." y p Hnone), Hnone.
    pose proof (rfind_bounds "." y).
    rewrite (proj2 (Z.ltb_ge _ _)) by lia. done.
  - rewrite (rfind_append_found "." y p) by lia.
    rewrite (proj2 (Z.ltb_lt _ _)) by lia.
    rewrite (proj2 (Z.ltb_lt (-1) _)) by lia.
    replace (Z.of_nat (String.length y) - 1 + 1)%Z
      with (Z.of_nat (String.length y) + 0)%Z by lia.
    change (-1 + 1)%Z with 0%Z.
    apply (splitext_loop_shift y p (rfind "." p) (Z.to_nat (rfind "." p)));
      rewrite ?length_append; lia.
Qed.

Variable self : GithubRepositoryReader.

(** X9. In a tree whose names are single segments, the walk gives every
    blob the names of its enclosing trees and its own name joined by
    "/"; the basename and the extension of that path are those of the
    blob's own name, so the [file_name] and [file_extension] of a
    plain-text Document do not depend on the directory of the file. *)
Theorem walked_paths_are_joined_names
    (fuel : nat) (tree_sha : string) (nodes : list Node) :
  served (_client self) (_owner self) (_repo self) tree_sha nodes →
  heights nodes < fuel →
  well_formed_tree nodes = true →
  outcome (_recurse_tree fuel self tree_sha "" 0)
    = Return ((λ e, (e.1, str_join "/" e.2)) <$> (nodes ≫= blob_entries []))
  ∧ Forall (λ e, os_path.basename (str_join "/" e.2)
                   = GitTreeResponseModel.path e.1
                 ∧ (os_path.splitext (str_join "/" e.2)).2
                   = (os_path.splitext (GitTreeResponseModel.path e.1)).2)
      (nodes ≫= blob_entries []).
Proof.
  intros Hserved Hfuel Hwf.
  pose proof (tree_entries_segments nodes Hwf) as Hentries.
  split.
  - pose proof (recurse_tree_served self fuel tree_sha nodes [] 0 Hserved Hfuel)
      as Hwalk.
    change (full_path []) with "" in Hwalk. rewrite Hwalk. f_equal.
    apply list_fmap_ext. intros i e He.
    rewrite Forall_forall in Hentries.
    destruct (Hentries e) as [Hsegs _]; [by eapply list_elem_of_lookup_2|].
    unfold pathed. f_equal. by apply full_path_segments.
  - eapply Forall_impl; [exact Hentries|].
    intros e [Hsegs [enclosing Heq]]. cbn beta. rewrite Heq.
    rewrite Heq in Hsegs. apply Forall_app in Hsegs as [_ Hp].
    rewrite Forall_singleton in Hp. unfold is_segment in Hp.
    apply andb_prop in Hp as [_ Hp].
    split; [by apply basename_joined | by apply splitext_joined].
Qed.

End Joined_paths.

(** *** Content broken into lines, and plain ASCII *)

Lemma a2b_base64_loop_filter ascii_data : ∀ quad_pos leftchar pads,
  base64.a2b_base64_loop ascii_data quad_pos leftchar pads
  = base64.a2b_base64_loop (List.filter significant ascii_data)
      quad_pos leftchar pads.
Proof.
  induction ascii_data as [|c rest IH]; intros quad_pos leftchar pads; [done|].
  cbn [List.filter]. unfold significant at 1.
  destruct (bool_decide (c = base64.BASE64_PAD)) eqn:Hpad.
  - cbn [orb base64.a2b_base64_loop]. rewrite Hpad.
    repeat case_bool_decide; try done; apply IH.
  - cbn [orb]. destruct (base64.table_a2b_base64 c) as [v|] eqn:Htab.
    + rewrite bool_decide_eq_true_2 by eauto.
      cbn [base64.a2b_base64_loop]. rewrite Hpad, Htab.
      destruct quad_pos as [|[|[|quad_pos]]]; by rewrite IH.
    + rewrite bool_decide_eq_false_2 by (by intros [? ?]).
      cbn [base64.a2b_base64_loop]. rewrite Hpad, Htab. apply IH.
Qed.

Lemma b64decode_filter ascii_data :
  base64.b64decode ascii_data
  = base64.b64decode (List.filter significant ascii_data).
Proof. unfold base64.b64decode. by rewrite <- a2b_base64_loop_filter. Qed.

Lemma valid_ascii bs : forallb is_ascii bs = true → utf8.valid bs = true.
Proof.
  induction bs as [|b bs IH]; [done|]. cbn [forallb utf8.valid].
  intros [Hb Hbs]%andb_prop. unfold is_ascii in Hb. rewrite Hb. by apply IH.
Qed.

Section Content.

Variable DEFAULT_FILE_EXTRACTOR : gmap string BaseParser.
Variable get_file_extension : string → string.
Variable self : GithubRepositoryReader.

Local Abbreviation blob_documents :=
  (blob_documents DEFAULT_FILE_EXTRACTOR get_file_extension self).
Local Abbreviation falls_back :=
  (falls_back DEFAULT_FILE_EXTRACTOR get_file_extension self).

(** X10. The bytes of a content that are neither of the base64 alphabet
    nor the pad, such as the line feeds the hosting service breaks the
    content with, do not count: a blob whose content, those bytes left
    out, is the base64 encoding of the UTF-8 text [C], and for whose
    extension no parser is registered, gives the Document of text [C]. *)
Theorem broken_lines_do_not_matter
    (blob_object : GitTreeObject) (full_path : string)
    (blob_data : GitBlobResponseModel.t) (C : string) :
  blob_response (_client self) (_owner self) (_repo self)
    (GitTreeResponseModel.sha blob_object) = inr blob_data →
  GitBlobResponseModel.encoding blob_data = "base64" →
  utf8.valid (utf8.encode C) = true →
  List.filter significant (GitBlobResponseModel.content blob_data)
    = base64.b64encode (utf8.encode C) →
  DEFAULT_FILE_EXTRACTOR !! get_file_extension full_path = None →
  outcome (blob_documents (blob_object, full_path))
  = Return [ {| text := C;
                doc_id := None;
                extra_info :=
                  {[ "full_path" := full_path;
                     "file_name" := os_path.basename full_path;
                     "file_extension" := (os_path.splitext full_path).2 ]} |} ].
Proof.
  intros Hblob Henc Hvalid Hcontent Hreg.
  erewrite blob_documents_fallback; eauto.
  - rewrite Hvalid. unfold utf8.encode.
    by rewrite String.string_of_list_byte_of_string.
  - rewrite b64decode_filter, Hcontent.
    apply base64_facts.b64decode_b64encode.
  - right. by left.
Qed.

(** X11. Content that decodes to ASCII bytes only is always text: when
    the plain-text fallback is reached for such a blob, it is never
    skipped and gives one Document, holding those bytes as its text. *)
Theorem ascii_content_is_never_skipped
    (blob_object : GitTreeObject) (full_path : string)
    (blob_data : GitBlobResponseModel.t) (decoded_bytes : list byte) :
  blob_response (_client self) (_owner self) (_repo self)
    (GitTreeResponseModel.sha blob_object) = inr blob_data →
  GitBlobResponseModel.encoding blob_data = "base64" →
  base64.b64decode (GitBlobResponseModel.content blob_data)
    = Return decoded_bytes →
  falls_back full_path decoded_bytes →
  forallb is_ascii decoded_bytes = true →
  outcome (blob_documents (blob_object, full_path))
  = Return [ {| text := String.string_of_list_byte decoded_bytes;
                doc_id := None;
                extra_info :=
                  {[ "full_path" := full_path;
                     "file_name" := os_path.basename full_path;
                     "file_extension" := (os_path.splitext full_path).2 ]} |} ].
Proof.
  intros Hblob Henc Hdec Hfall Hascii.
  erewrite blob_documents_fallback; eauto.
  by rewrite (valid_ascii _ Hascii).
Qed.

End Content.

(** *** The whole crawl *)

Section Whole_crawl.

Variable DEFAULT_FILE_EXTRACTOR : gmap string BaseParser.
Variable get_file_extension : string → string.
Variable self : GithubRepositoryReader.

Local Abbreviation generate :=
  (_generate_documents DEFAULT_FILE_EXTRACTOR get_file_extension self).
Local Abbreviation crawl :=
  (load_data DEFAULT_FILE_EXTRACTOR get_file_extension).
Local Abbreviation resolves := (resolves self).

Lemma load_data_resolved_run fuel commit_sha branch tree_sha :
  resolves commit_sha branch tree_sha →
  crawl fuel self commit_sha branch
  = (Run (resolution_request (_owner self) (_repo self) commit_sha branch)
         (Return ())
     ≫= λ _, _recurse_tree fuel self tree_sha "" 0 ≫= generate).
Proof.
  intros [(sha & response & -> & -> & Hresp & ->)
         |(name & response & -> & -> & Hresp & ->)]; cbn.
  - unfold _load_data_from_commit, get_commit. rewrite Hresp. reflexivity.
  - unfold _load_data_from_branch, get_branch. rewrite Hresp. reflexivity.
Qed.

(** X12. A crawl over a served tree that returns has made one request
    for the commit or the branch, one for each tree in depth-first
    order, and then one for each blob in the order of the walk, and no
    other: two more requests than the tree has subtrees and blobs. *)
Theorem requests_of_a_crawl
    (fuel : nat) (commit_sha branch : option string) (tree_sha : string)
    (nodes : list Node) (documents : list Document) :
  resolves commit_sha branch tree_sha →
  served (_client self) (_owner self) (_repo self) tree_sha nodes →
  heights nodes < fuel →
  outcome (crawl fuel self commit_sha branch) = Return documents →
  calls (crawl fuel self commit_sha branch)
    = resolution_request (_owner self) (_repo self) commit_sha branch
      ++ tree_requests (_owner self) (_repo self) tree_sha nodes
      ++ blob_requests (_owner self) (_repo self)
           (pathed <$> (nodes ≫= blob_entries []))
  ∧ length (calls (crawl fuel self commit_sha branch))
    = 2 + foldr plus 0 (count_subtrees <$> nodes)
      + foldr plus 0 (count_blobs <$> nodes).
Proof.
  intros Hres Hserved Hfuel.
  rewrite (load_data_resolved_run _ _ _ _ Hres), run_bind_return.
  pose proof (walk_served_run self fuel tree_sha nodes [] 0 Hserved Hfuel)
    as Hwalk.
  change (full_path []) with "" in Hwalk. rewrite Hwalk, run_bind_return.
  cbn [calls outcome]. intros Hret.
  destruct (generate_requests DEFAULT_FILE_EXTRACTOR get_file_extension self
              (pathed <$> (nodes ≫= blob_entries []))) as [_ Hall].
  rewrite (Hall documents Hret). split; [done|].
  rewrite !length_app. unfold blob_requests, tree_requests.
  rewrite !length_fmap, count_blob_entries_list. cbn [length].
  assert (Hone : length (resolution_request (_owner self) (_repo self)
                           commit_sha branch) = 1).
  { by destruct Hres as [(? & ? & -> & -> & _)|(? & ? & -> & -> & _)]. }
  rewrite Hone.
  assert (Htrees : length (nodes ≫= subtree_requests (_owner self) (_repo self))
                   = foldr plus 0 (count_subtrees <$> nodes)).
  { clear. induction nodes as [|n nodes IH]; [done|].
    rewrite bind_cons, length_app, length_subtree_requests, IH. done. }
  rewrite Htrees. lia.
Qed.

(** X13. The documents depend on the tree only: a call with a commit and
    a call with a branch that resolve to the same tree have the same
    outcome, and the same requests after the first. *)
Theorem same_tree_same_documents
    (fuel : nat) (commit_sha branch commit_sha' branch' : option string)
    (tree_sha : string) :
  resolves commit_sha branch tree_sha →
  resolves commit_sha' branch' tree_sha →
  outcome (crawl fuel self commit_sha branch)
    = outcome (crawl fuel self commit_sha' branch')
  ∧ tail (calls (crawl fuel self commit_sha branch))
    = tail (calls (crawl fuel self commit_sha' branch')).
Proof.
  intros Hres Hres'.
  rewrite (load_data_resolved_run _ _ _ _ Hres),
    (load_data_resolved_run _ _ _ _ Hres'), !run_bind_return.
  split; [done|].
  by destruct Hres as [(? & ? & -> & -> & _)|(? & ? & -> & -> & _)],
    Hres' as [(? & ? & -> & -> & _)|(? & ? & -> & -> & _)].
Qed.

(** X14. An error of the client on the commit or on the branch is not
    caught: [load_data] raises it unchanged after that one request, and
    asks for no tree and no blob. *)
Theorem resolution_error_propagates
    (fuel : nat) (commit_sha branch : option string) (e : exn) :
  (∃ sha, commit_sha = Some sha ∧ branch = None
          ∧ commit_response (_client self) (_owner self) (_repo self) sha
            = inl e)
  ∨ (∃ name, commit_sha = None ∧ branch = Some name
             ∧ branch_response (_client self) (_owner self) (_repo self) name
               = inl e) →
  crawl fuel self commit_sha branch
  = Run (resolution_request (_owner self) (_repo self) commit_sha branch)
        (Raise e).
Proof.
  intros [(sha & -> & -> & Hresp)|(name & -> & -> & Hresp)]; cbn.
  - unfold _load_data_from_commit, get_commit. by rewrite Hresp.
  - unfold _load_data_from_branch, get_branch. by rewrite Hresp.
Qed.

End Whole_crawl.

(** *** The metadata of a plain-text Document *)

Section Metadata.

Variable DEFAULT_FILE_EXTRACTOR : gmap string BaseParser.
Variable get_file_extension : string → string.
Variable self : GithubRepositoryReader.

Local Abbreviation blob_documents :=
  (blob_documents DEFAULT_FILE_EXTRACTOR get_file_extension self).

(** X15. The metadata of a plain-text Document (one without [doc_id])
    cut the path of its blob and lose nothing: [full_path] is the path;
    [file_name] is what follows its last "/" and holds none;
    [file_extension] is empty or starts at the last "." of the path,
    holding no other "." and no "/", and with the root before it makes
    the path again. *)
Theorem plain_text_metadata_cut_the_path
    (blob_object : GitTreeObject) (full_path : string) (document : Document) :
  outcome (blob_documents (blob_object, full_path)) = Return [document] →
  doc_id document = None →
  ∃ directory file_name root file_extension,
    extra_info document !! "full_path" = Some full_path
    ∧ extra_info document !! "file_name" = Some file_name
    ∧ extra_info document !! "file_extension" = Some file_extension
    ∧ full_path = directory +:+ file_name
    ∧ (directory = "" ∨ endswith_char directory "/" = true)
    ∧ slash_free file_name = true
    ∧ full_path = root +:+ file_extension
    ∧ (file_extension = ""
       ∨ ∃ r, file_extension = String "." r
              ∧ char_free "." r = true ∧ slash_free r = true).
Proof.
  intros Hone Hid.
  destruct (blob_document_shape _ _ _ _ _ _ Hone)
    as [[_ [[sha Hsome] _]]|[_ Hinfo]]; [congruence|].
  destruct (path_cuts full_path) as ((directory & Hdir & Hend & Hfree) & Hroot & Hext).
  exists directory, (os_path.basename full_path),
    (os_path.splitext full_path).1, (os_path.splitext full_path).2.
  rewrite Hinfo. repeat split; try done; by simplify_map_eq.
Qed.

End Metadata.

(** *** Crawls compose *)

Section Composition.

Variable DEFAULT_FILE_EXTRACTOR : gmap string BaseParser.
Variable get_file_extension : string → string.
Variable self : GithubRepositoryReader.

Local Abbreviation generate :=
  (_generate_documents DEFAULT_FILE_EXTRACTOR get_file_extension self).

(** X16. No blob bears on another: the crawl over two lists one after
    the other returns exactly when the crawl over each does, and its
    documents are those of the first followed by those of the second. *)
Theorem crawls_compose (l1 l2 : list (GitTreeObject * string))
    (documents : list Document) :
  outcome (generate (l1 ++ l2)) = Return documents
  ↔ ∃ d1 d2,
      outcome (generate l1) = Return d1
      ∧ outcome (generate l2) = Return d2
      ∧ documents = d1 ++ d2.
Proof.
  rewrite generate_app. unfold mbind, run_mbind, run_bind. split.
  - destruct (outcome (generate l1)) as [d1| |]; [|done..]. cbn.
    destruct (outcome (generate l2)) as [d2| |]; [|done..]. cbn.
    intros [= <-]. by exists d1, d2.
  - intros (d1 & d2 & -> & H2 & ->). cbn. by rewrite H2.
Qed.

End Composition.

(** *** The further properties on the two repositories *)

Lemma one_request_per_blob_witness :
  calls (_generate_documents Scenario.with_markdown Scenario.extension
           (Scenario.reader true)
           [(Scenario.a_txt, "a.txt"); (Scenario.c_bin, "b/c.bin");
            (Scenario.d_md, "d.md")])
  = [get_blob_call "jerryjliu" "gpt_index" "sha_a";
     get_blob_call "jerryjliu" "gpt_index" "sha_c";
     get_blob_call "jerryjliu" "gpt_index" "sha_d"].
Proof.
  destruct (one_request_per_blob Scenario.with_markdown Scenario.extension
    (Scenario.reader true)
    [(Scenario.a_txt, "a.txt"); (Scenario.c_bin, "b/c.bin");
     (Scenario.d_md, "d.md")]) as [_ H].
  apply (H [Scenario.hello_text; Scenario.title_parsed]). evaluate.
Defined.

Lemma blob_request_error_propagates_witness :
  outcome (_generate_documents Scenario.with_markdown Scenario.extension
             (Scenario.reader true)
             ([(Scenario.a_txt, "a.txt")] ++ (Outage.g_txt, "g.txt")
              :: [(Scenario.d_md, "d.md")]))
    = Raise (OtherException "HTTPError")
  ∧ calls (_generate_documents Scenario.with_markdown Scenario.extension
             (Scenario.reader true)
             ([(Scenario.a_txt, "a.txt")] ++ (Outage.g_txt, "g.txt")
              :: [(Scenario.d_md, "d.md")]))
    = blob_requests "jerryjliu" "gpt_index"
        ([(Scenario.a_txt, "a.txt")] ++ [(Outage.g_txt, "g.txt")]).
Proof.
  apply (blob_request_error_propagates Scenario.with_markdown
    Scenario.extension (Scenario.reader true) Outage.g_txt "g.txt"
    (OtherException "HTTPError") [(Scenario.a_txt, "a.txt")]
    [(Scenario.d_md, "d.md")] [Scenario.hello_text]); evaluate.
Defined.

Lemma parser_initialisation_error_propagates_witness :
  outcome (_generate_documents Outage.with_unready Scenario.extension
             (Scenario.reader true)
             ([(Scenario.a_txt, "a.txt")] ++ (Scenario.d_md, "d.md") :: []))
    = Raise (OtherException "ImportError")
  ∧ calls (_generate_documents Outage.with_unready Scenario.extension
             (Scenario.reader true)
             ([(Scenario.a_txt, "a.txt")] ++ (Scenario.d_md, "d.md") :: []))
    = blob_requests "jerryjliu" "gpt_index"
        ([(Scenario.a_txt, "a.txt")] ++ [(Scenario.d_md, "d.md")]).
Proof.
  apply (parser_initialisation_error_propagates Outage.with_unready
    Scenario.extension (Scenario.reader true) Scenario.d_md "d.md"
    (Scenario.blob "base64" "IyBUaXRsZQ==" "sha_d") (utf8.encode "# Title")
    Outage.unready (OtherException "ImportError") [(Scenario.a_txt, "a.txt")]
    [] [Scenario.hello_text]); evaluate.
Defined.

Lemma parsers_off_ignores_registry_witness :
  _generate_documents Scenario.with_markdown Scenario.extension
    (Scenario.reader false) [(Scenario.d_md, "d.md")]
  = _generate_documents Outage.with_unready (λ _, "md")
      (Scenario.reader false) [(Scenario.d_md, "d.md")].
Proof.
  apply (parsers_off_ignores_registry Scenario.with_markdown
    Outage.with_unready Scenario.extension (λ _, "md")
    (Scenario.reader false)). reflexivity.
Defined.

Lemma documents_have_two_shapes_witness :
  ∃ sources,
    sources `sublist_of` [(Scenario.a_txt, "a.txt"); (Scenario.c_bin, "b/c.bin");
                          (Scenario.d_md, "d.md")]
    ∧ Forall2 (λ bp document,
                 (_use_parser (Scenario.reader true) = true
                  ∧ parsed_shape bp.2 document)
                 ∨ text_shape bp.2 document)
        sources [Scenario.hello_text; Scenario.title_parsed].
Proof.
  apply (documents_have_two_shapes Scenario.with_markdown Scenario.extension
    (Scenario.reader true)). evaluate.
Defined.

Lemma one_request_per_tree_witness :
  calls (_recurse_tree 2 (Scenario.reader true) "sha_root" "" 0)
    = [get_tree_call "jerryjliu" "gpt_index" "sha_root";
       get_tree_call "jerryjliu" "gpt_index" "sha_b"]
  ∧ length (calls (_recurse_tree 2 (Scenario.reader true) "sha_root" "" 0)) = 2.
Proof.
  apply (one_request_per_tree (Scenario.reader true) 2 "sha_root"
    Scenario.nodes scenario_served). vm_compute. lia.
Defined.

Lemma walk_returns_only_blobs_witness :
  Forall walked [(Scenario.a_txt, "a.txt"); (Scenario.c_bin, "b/c.bin");
                 (Scenario.d_md, "d.md")].
Proof.
  apply (walk_returns_only_blobs (Scenario.reader true) 2 "sha_root" "" 0).
  evaluate.
Defined.

Lemma subtree_error_propagates_witness :
  outcome (_recurse_tree 2 Outage.reader "sha_root" "" 0)
  = Raise (OtherException "HTTPError").
Proof.
  apply (subtree_error_propagates Outage.reader 1 "sha_root" "" 0
    [Leaf Scenario.a_txt] [Scenario.d_md] Outage.x_dir).
  - evaluate.
  - apply List.Forall_cons; [apply served_leaf; discriminate|].
    apply List.Forall_nil.
  - vm_compute. lia.
  - evaluate.
  - evaluate.
Defined.

Lemma walked_paths_are_joined_names_witness :
  outcome (_recurse_tree 2 (Scenario.reader true) "sha_root" "" 0)
    = Return ((λ e, (e.1, str_join "/" e.2))
                <$> (Scenario.nodes ≫= blob_entries []))
  ∧ Forall (λ e, os_path.basename (str_join "/" e.2)
                   = GitTreeResponseModel.path e.1
                 ∧ (os_path.splitext (str_join "/" e.2)).2
                   = (os_path.splitext (GitTreeResponseModel.path e.1)).2)
      (Scenario.nodes ≫= blob_entries []).
Proof.
  apply (walked_paths_are_joined_names (Scenario.reader true) 2 "sha_root"
    Scenario.nodes scenario_served); [vm_compute; lia | evaluate].
Defined.

Lemma broken_lines_do_not_matter_witness :
  outcome (blob_documents Scenario.with_markdown Scenario.extension
             Outage.reader (Outage.h_txt, "h.txt"))
  = Return [Outage.hello_h].
Proof.
  pose proof (broken_lines_do_not_matter Scenario.with_markdown
    Scenario.extension Outage.reader Outage.h_txt "h.txt"
    {| GitBlobResponseModel.content :=
         String.list_byte_of_string "aGVs" ++ [x0a]
         ++ String.list_byte_of_string "bG8=" ++ [x0a];
       GitBlobResponseModel.encoding := "base64";
       GitBlobResponseModel.sha := "sha_h" |} "hello") as H.
  specialize (H ltac:(evaluate) ltac:(evaluate) ltac:(evaluate)
                ltac:(evaluate) ltac:(evaluate)).
  vm_compute in H. vm_compute. exact H.
Defined.

Lemma ascii_content_is_never_skipped_witness :
  outcome (blob_documents Scenario.with_markdown Scenario.extension
             (Scenario.reader true) (Scenario.a_txt, "a.txt"))
  = Return [Scenario.hello_text].
Proof.
  pose proof (ascii_content_is_never_skipped Scenario.with_markdown
    Scenario.extension (Scenario.reader true) Scenario.a_txt "a.txt"
    (Scenario.blob "base64" "aGVsbG8=" "sha_a") (utf8.encode "hello")) as H.
  specialize (H ltac:(evaluate) ltac:(evaluate) ltac:(evaluate)
                ltac:(right; left; evaluate) ltac:(evaluate)).
  vm_compute in H. vm_compute. exact H.
Defined.

Lemma scenario_resolves_commit :
  resolves (Scenario.reader true) (Some "commit_1") None "sha_root".
Proof. left. exists "commit_1", Scenario.commit_1. repeat split; evaluate. Qed.

Lemma scenario_resolves_branch :
  resolves (Scenario.reader true) None (Some "main") "sha_root".
Proof. right. eexists "main", _. repeat split; evaluate. Qed.

Lemma requests_of_a_crawl_witness :
  calls (load_data Scenario.with_markdown Scenario.extension 2
           (Scenario.reader true) (Some "commit_1") None)
    = resolution_request "jerryjliu" "gpt_index" (Some "commit_1") None
      ++ tree_requests "jerryjliu" "gpt_index" "sha_root" Scenario.nodes
      ++ blob_requests "jerryjliu" "gpt_index"
           (pathed <$> (Scenario.nodes ≫= blob_entries []))
  ∧ length (calls (load_data Scenario.with_markdown Scenario.extension 2
                     (Scenario.reader true) (Some "commit_1") None))
    = 2 + foldr plus 0 (count_subtrees <$> Scenario.nodes)
      + foldr plus 0 (count_blobs <$> Scenario.nodes).
Proof.
  apply (requests_of_a_crawl Scenario.with_markdown Scenario.extension
    (Scenario.reader true) 2 (Some "commit_1") None "sha_root" Scenario.nodes
    [Scenario.hello_text; Scenario.title_parsed]).
  - apply scenario_resolves_commit.
  - apply scenario_served.
  - vm_compute. lia.
  - evaluate.
Defined.

Lemma same_tree_same_documents_witness :
  outcome (load_data Scenario.with_markdown Scenario.extension 2
             (Scenario.reader true) (Some "commit_1") None)
    = outcome (load_data Scenario.with_markdown Scenario.extension 2
                 (Scenario.reader true) None (Some "main"))
  ∧ tail (calls (load_data Scenario.with_markdown Scenario.extension 2
                   (Scenario.reader true) (Some "commit_1") None))
    = tail (calls (load_data Scenario.with_markdown Scenario.extension 2
                     (Scenario.reader true) None (Some "main"))).
Proof.
  apply (same_tree_same_documents Scenario.with_markdown Scenario.extension
    (Scenario.reader true) 2 (Some "commit_1") None None (Some "main")
    "sha_root").
  - apply scenario_resolves_commit.
  - apply scenario_resolves_branch.
Defined.

Lemma resolution_error_propagates_witness :
  load_data Scenario.with_markdown Scenario.extension 2
    (Scenario.reader true) (Some "commit_2") None
  = Run [get_commit_call "jerryjliu" "gpt_index" "commit_2"]
        (Raise (OtherException "HTTPError")).
Proof.
  apply (resolution_error_propagates Scenario.with_markdown Scenario.extension
    (Scenario.reader true) 2 (Some "commit_2") None
    (OtherException "HTTPError")).
  left. exists "commit_2". repeat split; evaluate.
Defined.

Lemma plain_text_metadata_cut_the_path_witness :
  ∃ directory file_name root file_extension,
    extra_info Scenario.title_text !! "full_path" = Some "d.md"
    ∧ extra_info Scenario.title_text !! "file_name" = Some file_name
    ∧ extra_info Scenario.title_text !! "file_extension" = Some file_extension
    ∧ "d.md" = directory +:+ file_name
    ∧ (directory = "" ∨ endswith_char directory "/" = true)
    ∧ slash_free file_name = true
    ∧ "d.md" = root +:+ file_extension
    ∧ (file_extension = ""
       ∨ ∃ r, file_extension = String "." r
              ∧ char_free "." r = true ∧ slash_free r = true).
Proof.
  apply (plain_text_metadata_cut_the_path Scenario.with_broken
    Scenario.extension (Scenario.reader true) Scenario.d_md "d.md"
    Scenario.title_text); evaluate.
Defined.

Lemma crawls_compose_witness :
  outcome (_generate_documents Scenario.with_markdown Scenario.extension
             (Scenario.reader true)
             ([(Scenario.a_txt, "a.txt")] ++ [(Scenario.d_md, "d.md")]))
  = Return [Scenario.hello_text; Scenario.title_parsed].
Proof.
  apply (crawls_compose Scenario.with_markdown Scenario.extension
    (Scenario.reader true) [(Scenario.a_txt, "a.txt")]
    [(Scenario.d_md, "d.md")]).
  exists [Scenario.hello_text], [Scenario.title_parsed].
  repeat split; evaluate.
Defined.

(** *** Content that is not an encoding, and decodes all the same *)

Lemma significant_character v :
  (v < 64)%N → significant (base64.table_b2a_base64 v) = true.
Proof.
  intros Hv. destruct (base64_facts.table_roundtrip v Hv) as [Htab _].
  unfold significant. rewrite Htab.
  rewrite (bool_decide_eq_true_2 (is_Some (Some v))) by eauto.
  apply orb_true_r.
Qed.

(** An encoding holds characters of the alphabet and pads only. *)
Lemma b64encode_significant n : ∀ s,
  length s < n → forallb significant (base64.b64encode s) = true.
Proof.
  induction n as [|n IH]; intros s Hlen; [lia|].
  destruct s as [|b1 [|b2 [|b3 rest]]]; cbn [base64.b64encode forallb].
  - done.
  - destruct (base64_facts.sextets_bounded b1 x00) as (H1 & H2 & _ & _).
    by rewrite !significant_character by done.
  - destruct (base64_facts.sextets_bounded b1 b2) as (H1 & H2 & _ & _).
    destruct (base64_facts.sextets_bounded b2 x00) as (_ & _ & H3 & _).
    by rewrite !significant_character by done.
  - destruct (base64_facts.sextets_bounded b1 b2) as (H1 & H2 & _ & _).
    destruct (base64_facts.sextets_bounded b2 b3) as (_ & _ & H3 & _).
    destruct (base64_facts.sextets_bounded b3 x00) as (_ & _ & _ & H4).
    rewrite !significant_character by done.
    rewrite (IH rest) by (cbn in Hlen; lia). done.
Qed.

Lemma starred_is_malformed :
  ¬ well_formed_base64 (GitBlobResponseModel.content Lenient.starred).
Proof.
  intros [s Hs].
  pose proof (b64encode_significant (S (length s)) s ltac:(lia)) as Hall.
  rewrite <- Hs in Hall. vm_compute in Hall. discriminate Hall.
Qed.

Example starred_decodes :
  base64.b64decode (GitBlobResponseModel.content Lenient.starred)
  = Return (utf8.encode "hello").
Proof. evaluate. Qed.


Example starred_document :
  outcome (blob_documents ∅ Scenario.extension Lenient.reader
             (Lenient.i_txt, "i.txt"))
  = Return [Lenient.hello_i].
Proof. evaluate. Qed.
